(** * Scottish Munros: nearest Munro Top of every Munro

    A shallow embedding of
    [projects/2025/August/scottish_munros/python/exploration.py]: the
    partition of the peak table by its ['2021'] classification, the
    brute-force nearest-neighbour search of every Munro among the Munro
    Tops, the recomputed distance in kilometres, and the mean and median
    of the distance column.

    Numbers.  The script computes with binary64 floats; coordinates, heights
    and distances are modelled here as real numbers ([R]), so rounding,
    infinities and NaN cells are outside the model.  Comparisons of reals
    are decided with [Rlt_dec] and [Rle_dec].

    Tables.  A pandas frame is a list of rows, each carrying its index
    label; [read_csv] gives the labels [0, 1, ..., n-1] and every later
    stage keeps the label of the row it was computed from.

    Exceptions.  A stage that raises stops the script; stages are functions
    into [result], and the constructors of [error] are the Python
    exceptions the script can meet. *)

From Stdlib Require Import String List Bool Arith Lia.
From Stdlib Require Import Reals Lra.
From Stdlib Require Import Permutation Sorted.
Import ListNotations.

Local Open Scope R_scope.

(** ** Exceptions *)

Inductive error : Type :=
| ValueError          (* idxmin of an empty sequence *)
| KeyError            (* a label or column that is not in the index *)
| TypeError           (* distance to a missing geometry *)
| ZeroDivisionError   (* [sum(...) / len(...)] with [len(...) = 0] *)
| StatisticsError.    (* [statistics.median] of empty data *)

Inductive result (T : Type) : Type :=
| Ok (v : T)
| Err (e : error).

Arguments Ok {T} v.
Arguments Err {T} e.

Definition bind {T U : Type} (c : result T) (k : T -> result U) : result U :=
  match c with
  | Ok v => k v
  | Err e => Err e
  end.

Notation "x <- c ;; k" := (bind c (fun x => k))
  (at level 61, c at next level, right associativity).

(** [Series.apply] and [DataFrame.apply(axis=1)] call the function row by
    row, in index order; the first exception ends the traversal. *)
Fixpoint mapM {T U : Type} (f : T -> result U) (l : list T) : result (list U) :=
  match l with
  | [] => Ok []
  | x :: l' =>
      y <- f x ;;
      ys <- mapM f l' ;;
      Ok (y :: ys)
  end.

(** ** Geometry *)

Record point : Type := Point { px : R; py : R }.

(** [shapely]'s [distance] between two points of one planar CRS. *)
Definition distance (a b : point) : R :=
  sqrt ((px a - px b) * (px a - px b) + (py a - py b) * (py a - py b)).

(** ** Tables *)

Definition label := nat.

Definition frame (T : Type) : Type := list (label * T).

Definition labels {T : Type} (f : frame T) : list label := map fst f.

Definition column {T V : Type} (c : T -> V) (f : frame T) : list (label * V) :=
  map (fun r => (fst r, c (snd r))) f.

Definition values {T : Type} (f : frame T) : list T := map snd f.

(** The columns of the CSV file the script reads.  A cell of ['2021'] that
    is empty in the file is [None]. *)
Record csv_row : Type := CsvRow {
  csv_Name : string;
  csv_Height_m : R;
  csv_Height_ft : R;
  csv_2021 : option string;
  xcoord : R;
  ycoord : R
}.

(** A row of [munros_geo]: the CSV columns and the point geometry. *)
Record geo_row : Type := GeoRow {
  geo_csv : csv_row;
  geo_geometry : point
}.

(** A row after [select(_.Name, _.Height_m, _.Height_ft, _['2021'],
    _.geometry)]. *)
Record peak : Type := Peak {
  Name : string;
  Height_m : R;
  Height_ft : R;
  y2021 : option string;
  geometry : point
}.

(** A row of [only_munros] after the three [mutate] calls. *)
Record matched : Type := Matched {
  munro : peak;
  closest_name : option string;
  closest_geometry : point;
  closest_distance : R
}.

(** [pd.read_csv]: the rows of the file under a [RangeIndex]. *)
Definition read_csv (rows : list csv_row) : frame csv_row :=
  combine (seq 0 (length rows)) rows.

(** [gpd.GeoDataFrame(data=munros, crs=27700,
     geometry=gpd.points_from_xy(munros.xcoord, munros.ycoord))]. *)
Definition munros_geo (munros : frame csv_row) : frame geo_row :=
  map (fun r => (fst r, GeoRow (snd r) (Point (xcoord (snd r)) (ycoord (snd r)))))
      munros.

(** ** Partitioner *)

(** [_['2021'] == c]: exact string comparison; a missing cell is unequal
    to every string. *)
Definition eq_2021 (c : string) (r : geo_row) : bool :=
  match csv_2021 (geo_csv r) with
  | Some s => String.eqb s c
  | None => false
  end.

Definition select (r : geo_row) : peak :=
  Peak (csv_Name (geo_csv r)) (csv_Height_m (geo_csv r))
       (csv_Height_ft (geo_csv r)) (csv_2021 (geo_csv r)) (geo_geometry r).

Definition filter_select (c : string) (g : frame geo_row) : frame peak :=
  map (fun r => (fst r, select (snd r)))
      (filter (fun r => eq_2021 c (snd r)) g).

Definition only_munros (g : frame geo_row) : frame peak :=
  filter_select "Munro"%string g.

Definition only_munro_tops (g : frame geo_row) : frame peak :=
  filter_select "Munro Top"%string g.

(** ** Nearest-neighbour matcher *)

(** [only_munro_tops.geometry.distance(x)]: a series over the index of
    [only_munro_tops]. *)
Definition distance_series (tops : frame peak) (x : point) : list (label * R) :=
  map (fun r => (fst r, distance (geometry (snd r)) x)) tops.

(** The running minimum of [argmin]: a later entry replaces the best one
    only when it is strictly smaller, so the first minimum is kept. *)
Fixpoint argmin_from (best : label * R) (s : list (label * R)) : label * R :=
  match s with
  | [] => best
  | e :: s' =>
      if Rlt_dec (snd e) (snd best) then argmin_from e s'
      else argmin_from best s'
  end.

(** [Series.idxmin()]: the label of the first minimum; [ValueError] on an
    empty series. *)
Definition idxmin (s : list (label * R)) : result label :=
  match s with
  | [] => Err ValueError
  | e :: s' => Ok (fst (argmin_from e s'))
  end.

(** [frame.loc[l]]: the row labelled [l]; [KeyError] when no row has that
    label.  The index of every frame of the script is duplicate-free
    ([labels_filter_select_NoDup] below), so the row is unique. *)
Fixpoint loc {T : Type} (f : frame T) (l : label) : result T :=
  match f with
  | [] => Err KeyError
  | r :: f' => if Nat.eqb (fst r) l then Ok (snd r) else loc f' l
  end.

(** [lambda x: only_munro_tops.loc[only_munro_tops.geometry.distance(x).idxmin()]] *)
Definition closest_point (tops : frame peak) (x : point) : result peak :=
  l <- idxmin (distance_series tops x) ;;
  loc tops l.

(** What [Series.apply] returns: for an empty series the function is never
    called and the result is an empty series; otherwise the rows returned
    by the function are stacked in a frame over the caller's index. *)
Inductive applied : Type :=
| EmptySeries
| DataFrame (rows : frame peak).

(** [closest_points = only_munros.geometry.apply(lambda x: ...)] *)
Definition closest_points (munros tops : frame peak) : result applied :=
  match munros with
  | [] => Ok EmptySeries
  | _ =>
      rows <- mapM (fun r => q <- closest_point tops (geometry (snd r)) ;;
                             Ok (fst r, q)) munros ;;
      Ok (DataFrame rows)
  end.

(** [closest_points['Name']], [closest_points['geometry']]: a column of the
    frame; on the empty series the string is looked up in the (empty) index
    and raises [KeyError]. *)
Definition getitem {V : Type} (c : peak -> V) (cp : applied)
  : result (list (label * V)) :=
  match cp with
  | EmptySeries => Err KeyError
  | DataFrame rows => Ok (column c rows)
  end.

(** Index alignment of [mutate(new = series)]: the value of the series at
    the row's label, a missing value when the label is absent. *)
Fixpoint aligned {V : Type} (s : list (label * V)) (l : label) : option V :=
  match s with
  | [] => None
  | e :: s' => if Nat.eqb (fst e) l then Some (snd e) else aligned s' l
  end.

(** One row of the three [mutate] calls.  A missing [closest_name] stays
    missing; a missing [closest_geometry] makes [distance] raise. *)
Definition mutate_row (names : list (label * string))
    (geoms : list (label * point)) (r : label * peak)
  : result (label * matched) :=
  match aligned geoms (fst r) with
  | None => Err TypeError
  | Some g =>
      Ok (fst r,
          Matched (snd r) (aligned names (fst r)) g
                  (distance (geometry (snd r)) g / 1000))
  end.

(** [only_munros] as rebound by the second assignment of the script. *)
Definition only_munros' (munros : frame peak) (cp : applied)
  : result (frame matched) :=
  names <- getitem Name cp ;;
  geoms <- getitem geometry cp ;;
  mapM (mutate_row names geoms) munros.

(** The matcher: lines 53 to 65 of the script. *)
Definition matcher (munros tops : frame peak) : result (frame matched) :=
  cp <- closest_points munros tops ;;
  only_munros' munros cp.

(** ** Aggregator *)

(** The built-in [sum]: left to right, starting from [0]. *)
Definition py_sum (xs : list R) : R := fold_left Rplus xs 0.

(** [s / n] with an integer [n]. *)
Definition py_div (s : R) (n : nat) : result R :=
  match n with
  | O => Err ZeroDivisionError
  | S _ => Ok (s / INR n)
  end.

(** [sum(only_munros.closest_distance) / len(only_munros)] *)
Definition dist_mean (om : frame matched) : result R :=
  py_div (py_sum (map closest_distance (values om))) (length om).

Fixpoint insert_sorted (x : R) (l : list R) : list R :=
  match l with
  | [] => [x]
  | y :: l' => if Rle_dec x y then x :: l else y :: insert_sorted x l'
  end.

(** The built-in [sorted], on numbers. *)
Fixpoint sorted (l : list R) : list R :=
  match l with
  | [] => []
  | x :: l' => insert_sorted x (sorted l')
  end.

(** [statistics.median]. *)
Definition median (data : list R) : result R :=
  let data' := sorted data in
  let n := length data' in
  if Nat.eqb n 0 then Err StatisticsError
  else if Nat.eqb (n mod 2) 1 then Ok (nth (n / 2) data' 0)
  else let i := (n / 2)%nat in
       Ok ((nth (i - 1) data' 0 + nth i data' 0) / 2).

(** [stat.median(only_munros.closest_distance)] *)
Definition dist_median (om : frame matched) : result R :=
  median (map closest_distance (values om)).

(** ** The whole script, up to the two statistics *)

Record summary : Type := Summary {
  s_only_munros : frame matched;
  s_dist_mean : R;
  s_dist_median : R
}.

Definition exploration (rows : list csv_row) : result summary :=
  let g := munros_geo (read_csv rows) in
  om <- matcher (only_munros g) (only_munro_tops g) ;;
  m <- dist_mean om ;;
  md <- dist_median om ;;
  Ok (Summary om m md).

(** ** Renderer: the limits of the x axis *)

(** The built-in [max]: [ValueError] on an empty sequence; a later element
    replaces the running maximum only when it is strictly greater. *)
Definition py_max (xs : list R) : result R :=
  match xs with
  | [] => Err ValueError
  | x :: xs' =>
      Ok (fold_left (fun best y => if Rlt_dec best y then y else best) xs' x)
  end.

(** The two arguments of
    [ax1.set_xlim(0, max(only_munros["closest_distance"]) + 5)]. *)
Definition xlim (om : frame matched) : result (R * R) :=
  hi <- py_max (map closest_distance (values om)) ;;
  Ok (0, hi + 5).

(** ** Notions used by the statements *)

(** The elements of [ds] that are at most [v], and those that are at
    least [v]. *)
Definition at_most (v : R) (ds : list R) : list R :=
  filter (fun d => if Rle_dec d v then true else false) ds.

Definition at_least (v : R) (ds : list R) : list R :=
  filter (fun d => if Rle_dec v d then true else false) ds.

(** The row of [only_munros] or [only_munro_tops] that a row of the file
    becomes: its five selected columns, the geometry being the point of
    its two coordinates. *)
Definition to_peak (r : csv_row) : peak :=
  select (GeoRow r (Point (xcoord r) (ycoord r))).

(** [_['2021'] == c], on a row of the file. *)
Definition has_class (c : string) (r : csv_row) : bool :=
  eq_2021 c (GeoRow r (Point (xcoord r) (ycoord r))).

(** [first_min s e]: [e] is an entry of [s], every entry before it is
    strictly larger and no entry after it is smaller. *)
Definition first_min (s : list (label * R)) (e : label * R) : Prop :=
  exists s1 s2,
    s = s1 ++ e :: s2 /\
    (forall e', In e' s1 -> snd e < snd e') /\
    (forall e', In e' s2 -> snd e <= snd e').

(** [first_nearest tops x l q]: the row [(l, q)] of [tops] is at minimum
    distance from [x], and it is the first such row of [tops]. *)
Definition first_nearest (tops : frame peak) (x : point) (l : label) (q : peak)
  : Prop :=
  exists t1 t2,
    tops = t1 ++ (l, q) :: t2 /\
    (forall r, In r t1 ->
       distance (geometry q) x < distance (geometry (snd r)) x) /\
    (forall r, In r t2 ->
       distance (geometry q) x <= distance (geometry (snd r)) x).

(** What lines 53 to 65 record for one row of [only_munros]. *)
Definition match_row (tops : frame peak) (r : label * peak)
  : result (label * matched) :=
  q <- closest_point tops (geometry (snd r)) ;;
  Ok (fst r,
      Matched (snd r) (Some (Name q)) (geometry q)
              (distance (geometry (snd r)) (geometry q) / 1000)).

(** What one row of the matcher's output says about the row of
    [only_munros] it was computed from. *)
Definition match_of (tops : frame peak) (r : label * peak) (m : label * matched)
  : Prop :=
  fst m = fst r /\ munro (snd m) = snd r /\
  exists l q,
    idxmin (distance_series tops (geometry (snd r))) = Ok l /\
    first_nearest tops (geometry (snd r)) l q /\
    closest_name (snd m) = Some (Name q) /\
    closest_geometry (snd m) = geometry q /\
    closest_distance (snd m) = distance (geometry (snd r)) (geometry q) / 1000.

(** The two subsets as the script computes them from the rows of the
    file. *)
Definition script_munros (rows : list csv_row) : frame peak :=
  only_munros (munros_geo (read_csv rows)).

Definition script_tops (rows : list csv_row) : frame peak :=
  only_munro_tops (munros_geo (read_csv rows)).

(** [nearest_in B x q]: [q] is a record of [B] and no record of [B] is
    nearer to [x]. *)
Definition nearest_in (B : list peak) (x : point) (q : peak) : Prop :=
  In q B /\
  forall q', In q' B -> distance (geometry q) x <= distance (geometry q') x.

(** The one-phase computation of the specification, which the two phases
    of the script are compared with: the series of the distances from [x]
    to every Munro Top, already in kilometres, ... *)
Definition km_series (tops : frame peak) (x : point) : list (label * R) :=
  map (fun r => (fst r, distance x (geometry (snd r)) / 1000)) tops.

(** ... and its minimum. *)
Definition direct_min_km (tops : frame peak) (x : point) : result R :=
  match map snd (km_series tops x) with
  | [] => Err ValueError
  | d :: ds => Ok (fold_left Rmin ds d)
  end.

(** Metres to kilometres, on an entry of a series. *)
Definition in_km (e : label * R) : label * R := (fst e, snd e / 1000).

(** ** Concrete tables *)

(** One Munro at the origin and two Munro Tops one metre east and one
    metre west of it, in the two possible file orders. *)
Definition row_munro : csv_row :=
  CsvRow "Ben Mid" 1000 3281 (Some "Munro"%string) 0 0.
Definition row_east : csv_row :=
  CsvRow "Top East" 950 3117 (Some "Munro Top"%string) 1 0.
Definition row_west : csv_row :=
  CsvRow "Top West" 940 3084 (Some "Munro Top"%string) (-1) 0.

Definition rows_east_west : list csv_row := [row_munro; row_east; row_west].
Definition rows_west_east : list csv_row := [row_munro; row_west; row_east].

Definition peak_munro : peak := select (GeoRow row_munro (Point 0 0)).
Definition peak_east : peak := select (GeoRow row_east (Point 1 0)).
Definition peak_west : peak := select (GeoRow row_west (Point (-1) 0)).

(** A Munro and a Munro Top with the same coordinates. *)
Definition row_twin : csv_row :=
  CsvRow "Ben Twin" 1000 3281 (Some "Munro"%string) 5 7.
Definition row_twin_top : csv_row :=
  CsvRow "Twin Top" 990 3248 (Some "Munro Top"%string) 5 7.
Definition rows_twins : list csv_row := [row_twin; row_twin_top].
Definition peak_twin : peak := select (GeoRow row_twin (Point 5 7)).
Definition peak_twin_top : peak := select (GeoRow row_twin_top (Point 5 7)).

(** One Munro at the origin, a Munro Top 5 m away and one 10 m away. *)
Definition row_near : csv_row :=
  CsvRow "Top Near" 950 3117 (Some "Munro Top"%string) 3 4.
Definition row_far : csv_row :=
  CsvRow "Top Far" 940 3084 (Some "Munro Top"%string) 6 8.
Definition rows_near_far : list csv_row := [row_munro; row_near; row_far].
Definition peak_near : peak := select (GeoRow row_near (Point 3 4)).
Definition peak_far : peak := select (GeoRow row_far (Point 6 8)).

(** A table without any Munro Top. *)
Definition rows_no_top : list csv_row := [row_munro].

(** Three recorded rows with the distances 1, 2 and 3. *)
Definition om_123 : frame matched :=
  [(0%nat, Matched peak_munro (Some "Top East"%string) (Point 1 0) 1);
   (1%nat, Matched peak_munro (Some "Top East"%string) (Point 1 0) 2);
   (2%nat, Matched peak_munro (Some "Top East"%string) (Point 1 0) 3)].

(** ** Tactics *)

Arguments distance : simpl never.

(** Case analysis on the comparisons of concrete reals. *)
Ltac decide_Rle :=
  repeat (simpl;
          match goal with
          | |- context [Rle_dec ?a ?b] => destruct (Rle_dec a b); try lra
          end).

Ltac decide_Rlt :=
  repeat (simpl;
          match goal with
          | |- context [Rlt_dec ?a ?b] => destruct (Rlt_dec a b); try lra
          end).

(** * Properties *)

(** ** The error monad *)

Lemma bind_Ok_inv {T U : Type} (c : result T) (k : T -> result U) (u : U) :
  bind c k = Ok u -> exists v, c = Ok v /\ k v = Ok u.
Proof.
  destruct c as [v | e]; simpl; intros H.
  - exists v; split; [reflexivity | exact H].
  - discriminate H.
Qed.

Lemma mapM_Forall2 {T U : Type} (f : T -> result U) (P : T -> U -> Prop) :
  (forall x y, f x = Ok y -> P x y) ->
  forall l ys, mapM f l = Ok ys -> Forall2 P l ys.
Proof.
  intros HP l; induction l as [| x l IH]; simpl; intros ys H.
  - injection H as <-. constructor.
  - apply bind_Ok_inv in H as (y & Hy & H).
    apply bind_Ok_inv in H as (ys' & Hys & H).
    injection H as <-. constructor; auto.
Qed.

Lemma mapM_total {T U : Type} (f : T -> result U) (l : list T) :
  (forall x, In x l -> exists y, f x = Ok y) ->
  exists ys, mapM f l = Ok ys.
Proof.
  induction l as [| x l IH]; simpl; intros H.
  - eexists; reflexivity.
  - destruct (H x (or_introl eq_refl)) as (y & Hy).
    destruct IH as (ys & Hys); [intros z Hz; apply H; now right |].
    exists (y :: ys). now rewrite Hy, Hys.
Qed.

Lemma mapM_ext_in {T U : Type} (f g : T -> result U) (l : list T) :
  (forall x, In x l -> f x = g x) -> mapM f l = mapM g l.
Proof.
  induction l as [| x l IH]; simpl; intros H; [reflexivity |].
  rewrite (H x (or_introl eq_refl)), IH; [reflexivity |].
  intros z Hz; apply H; now right.
Qed.

(** ** Index labels *)

Lemma labels_read_csv (rows : list csv_row) :
  labels (read_csv rows) = seq 0 (length rows).
Proof.
  unfold labels, read_csv.
  generalize 0%nat.
  induction rows as [| r rows IH]; intros n; simpl; [reflexivity |].
  now rewrite IH.
Qed.

Lemma labels_munros_geo (m : frame csv_row) :
  labels (munros_geo m) = labels m.
Proof.
  unfold labels, munros_geo. rewrite map_map. reflexivity.
Qed.

Lemma NoDup_map_fst_filter {T : Type} (p : label * T -> bool) (f : frame T) :
  NoDup (map fst f) -> NoDup (map fst (filter p f)).
Proof.
  induction f as [| r f IH]; simpl; intros H; [constructor |].
  inversion H as [| ? ? Hnot Hnd]; subst.
  destruct (p r); simpl; [constructor |]; auto.
  intros Hin. apply Hnot.
  apply in_map_iff in Hin as (r' & Hr' & Hin).
  apply filter_In in Hin as [Hin _].
  rewrite <- Hr'. now apply in_map.
Qed.

Lemma labels_filter_select (c : string) (g : frame geo_row) :
  labels (filter_select c g) = labels (filter (fun r => eq_2021 c (snd r)) g).
Proof.
  unfold labels, filter_select. rewrite map_map. reflexivity.
Qed.

Lemma labels_filter_select_NoDup (c : string) (g : frame geo_row) :
  NoDup (labels g) -> NoDup (labels (filter_select c g)).
Proof.
  intros H. rewrite labels_filter_select.
  now apply NoDup_map_fst_filter.
Qed.

Lemma labels_pipeline_NoDup (c : string) (rows : list csv_row) :
  NoDup (labels (filter_select c (munros_geo (read_csv rows)))).
Proof.
  apply labels_filter_select_NoDup.
  rewrite labels_munros_geo, labels_read_csv.
  apply seq_NoDup.
Qed.

Lemma loc_In {T : Type} (f : frame T) (l : label) (r : T) :
  NoDup (labels f) -> In (l, r) f -> loc f l = Ok r.
Proof.
  induction f as [| [l' r'] f IH]; simpl; intros Hnd Hin; [contradiction |].
  inversion Hnd as [| ? ? Hnot Hnd']; subst.
  destruct Hin as [Heq | Hin].
  - injection Heq as -> ->. now rewrite Nat.eqb_refl.
  - destruct (Nat.eqb_spec l' l) as [-> | Hne].
    + exfalso. apply Hnot. change l with (fst (l, r)). now apply in_map.
    + now apply IH.
Qed.

Lemma aligned_In {V : Type} (s : list (label * V)) (l : label) (v : V) :
  NoDup (map fst s) -> In (l, v) s -> aligned s l = Some v.
Proof.
  induction s as [| [l' v'] s IH]; simpl; intros Hnd Hin; [contradiction |].
  inversion Hnd as [| ? ? Hnot Hnd']; subst.
  destruct Hin as [Heq | Hin].
  - injection Heq as -> ->. now rewrite Nat.eqb_refl.
  - destruct (Nat.eqb_spec l' l) as [-> | Hne].
    + exfalso. apply Hnot. change l with (fst (l, v)). now apply in_map.
    + now apply IH.
Qed.

(** ** Distance *)

Lemma distance_nonneg (a b : point) : 0 <= distance a b.
Proof. unfold distance. apply sqrt_pos. Qed.

Lemma distance_sym (a b : point) : distance a b = distance b a.
Proof. unfold distance. f_equal. ring. Qed.

Lemma distance_self (a : point) : distance a a = 0.
Proof.
  unfold distance.
  replace ((px a - px a) * (px a - px a) + (py a - py a) * (py a - py a))
    with 0 by ring.
  apply sqrt_0.
Qed.

(** ** The running minimum *)

Lemma argmin_from_first_min (s pre : list (label * R)) (best : label * R) :
  forall post,
    (forall e', In e' pre -> snd best < snd e') ->
    (forall e', In e' post -> snd best <= snd e') ->
    first_min (pre ++ best :: post ++ s) (argmin_from best s).
Proof.
  revert pre best.
  induction s as [| e s IH]; intros pre best post Hpre Hpost; simpl.
  - rewrite app_nil_r. exists pre, post. auto.
  - destruct (Rlt_dec (snd e) (snd best)) as [Hlt | Hge].
    + specialize (IH (pre ++ best :: post) e [] ).
      simpl in IH. rewrite <- app_assoc in IH. simpl in IH.
      apply IH.
      * intros e' Hin. apply in_app_or in Hin as [Hin | [<- | Hin]].
        -- specialize (Hpre e' Hin). lra.
        -- exact Hlt.
        -- specialize (Hpost e' Hin). lra.
      * intros e' [].
    + specialize (IH pre best (post ++ [e])).
      rewrite <- app_assoc in IH. simpl in IH.
      apply IH; [exact Hpre |].
      intros e' Hin. apply in_app_or in Hin as [Hin | [<- | []]].
      * now apply Hpost.
      * lra.
Qed.

Lemma idxmin_first_min (s : list (label * R)) :
  s <> [] ->
  exists e, idxmin s = Ok (fst e) /\ first_min s e.
Proof.
  destruct s as [| e0 s]; intros Hne; [contradiction |].
  exists (argmin_from e0 s). split; [reflexivity |].
  apply (argmin_from_first_min s [] e0 []); intros e' [].
Qed.

(** ** The lambda of [closest_points] *)

Lemma first_nearest_In tops x l q :
  first_nearest tops x l q -> In (l, q) tops.
Proof.
  intros (t1 & t2 & -> & _). apply in_elt.
Qed.

Lemma first_nearest_le tops x l q :
  first_nearest tops x l q ->
  forall r, In r tops ->
    distance (geometry q) x <= distance (geometry (snd r)) x.
Proof.
  intros (t1 & t2 & -> & H1 & H2) r Hin.
  apply in_app_or in Hin as [Hin | [<- | Hin]].
  - left. now apply H1.
  - simpl. lra.
  - now apply H2.
Qed.

Lemma closest_point_first_nearest (tops : frame peak) (x : point) :
  tops <> [] -> NoDup (labels tops) ->
  exists l q,
    idxmin (distance_series tops x) = Ok l /\
    closest_point tops x = Ok q /\ first_nearest tops x l q.
Proof.
  intros Hne Hnd.
  destruct (idxmin_first_min (distance_series tops x)) as (e & He & Hmin).
  { destruct tops; [contradiction | discriminate]. }
  destruct Hmin as (s1 & s2 & Hs & H1 & H2).
  unfold distance_series in Hs.
  apply map_eq_app in Hs as (t1 & t2' & -> & Ht1 & Ht2).
  apply map_eq_cons in Ht2 as ([l q] & t2 & -> & Hq & Ht2).
  subst s1 s2 e. simpl in *.
  exists l, q. split; [exact He |]. split.
  - unfold closest_point. rewrite He. simpl.
    apply loc_In; [exact Hnd | apply in_elt].
  - exists t1, t2. split; [reflexivity |]. split.
    + intros r Hr. apply (H1 (fst r, distance (geometry (snd r)) x)).
      apply in_map_iff. now exists r.
    + intros r Hr. apply (H2 (fst r, distance (geometry (snd r)) x)).
      apply in_map_iff. now exists r.
Qed.

Lemma closest_point_empty (x : point) : closest_point [] x = Err ValueError.
Proof. reflexivity. Qed.

(** ** The matcher, row by row *)

Lemma mapM_Err_bind {T U V W : Type} (f : T -> result U)
    (k1 : T -> U -> V) (k2 : T -> U -> W) (l : list T) (e : error) :
  mapM (fun x => y <- f x ;; Ok (k1 x y)) l = Err e ->
  mapM (fun x => y <- f x ;; Ok (k2 x y)) l = Err e.
Proof.
  induction l as [| x l IH]; simpl; [discriminate |].
  destruct (f x) as [y | e']; simpl; [| congruence].
  destruct (mapM (fun x => y <- f x ;; Ok (k1 x y)) l) as [ys | e''] eqn:E;
    simpl; [discriminate |].
  intros H. injection H as ->. rewrite (IH eq_refl). reflexivity.
Qed.

Lemma Forall2_In_l {T U : Type} (P : T -> U -> Prop) (l : list T) (l' : list U) x :
  Forall2 P l l' -> In x l -> exists y, In y l' /\ P x y.
Proof.
  induction 1 as [| a b l l' Hab _ IH]; simpl; [contradiction |].
  intros [<- | Hin].
  - exists b; auto.
  - destruct (IH Hin) as (y & Hy & HP). exists y; auto.
Qed.

Lemma Forall2_map_fst {T U : Type} (l : frame T) (l' : frame U) :
  Forall2 (fun r m => fst m = fst r) l l' -> labels l' = labels l.
Proof.
  unfold labels.
  induction 1 as [| a b l l' Hab _ IH]; simpl; [reflexivity |].
  now rewrite Hab, IH.
Qed.

Lemma Forall2_weaken {T U : Type} (P Q : T -> U -> Prop) (l : list T) (l' : list U) :
  (forall x y, P x y -> Q x y) -> Forall2 P l l' -> Forall2 Q l l'.
Proof. intros HPQ; induction 1; constructor; auto. Qed.

(** On a non-empty [only_munros] with a duplicate-free index, the two
    phases of the script (the [apply], then the three [mutate]s aligned on
    the index) are one traversal of [only_munros] by [match_row]. *)
Lemma matcher_match_row (munros tops : frame peak) :
  munros <> [] -> NoDup (labels munros) ->
  matcher munros tops = mapM (match_row tops) munros.
Proof.
  intros Hne Hnd. unfold matcher, closest_points.
  destruct munros as [| r0 munros']; [contradiction |].
  set (munros := r0 :: munros') in *.
  set (F := fun r : label * peak =>
              q <- closest_point tops (geometry (snd r)) ;; Ok (fst r, q)).
  destruct (mapM F munros) as [rows | e] eqn:Hrows.
  - simpl.
    assert (HF : Forall2 (fun r row =>
                  fst row = fst r /\
                  closest_point tops (geometry (snd r)) = Ok (snd row))
                munros rows).
    { apply (mapM_Forall2 F); [| exact Hrows].
      intros r row H. unfold F in H.
      apply bind_Ok_inv in H as (q & Hq & H). injection H as <-. auto. }
    assert (Hlab : labels rows = labels munros).
    { apply Forall2_map_fst. eapply Forall2_weaken; [| exact HF].
      now intros ? ? []. }
    change (mapM (mutate_row (column Name rows) (column geometry rows)) munros
            = mapM (match_row tops) munros).
    apply mapM_ext_in. intros r Hr.
    destruct (Forall2_In_l _ _ _ _ HF Hr) as ([l q] & Hin & Hl & Hq).
    simpl in Hl, Hq. subst l.
    unfold mutate_row, match_row. rewrite Hq. simpl.
    assert (Hc : forall V (c : peak -> V),
               aligned (column c rows) (fst r) = Some (c q)).
    { intros V c. apply aligned_In.
      - replace (map fst (column c rows)) with (labels rows);
          [now rewrite Hlab |].
        unfold column, labels. now rewrite map_map.
      - unfold column. apply in_map_iff. now exists (fst r, q). }
    now rewrite !Hc.
  - change (Err e = mapM (match_row tops) munros). symmetry.
    apply (mapM_Err_bind _ (fun r q => (fst r, q))). exact Hrows.
Qed.

Lemma matcher_empty (tops : frame peak) : matcher [] tops = Err KeyError.
Proof. reflexivity. Qed.

Lemma match_row_match_of (tops : frame peak) r m :
  tops <> [] -> NoDup (labels tops) ->
  match_row tops r = Ok m -> match_of tops r m.
Proof.
  intros Hne Hnd H. unfold match_row in H.
  destruct (closest_point_first_nearest tops (geometry (snd r)) Hne Hnd)
    as (l & q & Hl & Hq & Hfn).
  rewrite Hq in H. simpl in H. injection H as <-.
  repeat split. exists l, q. auto.
Qed.

Lemma matcher_Ok (munros tops : frame peak) :
  munros <> [] -> tops <> [] ->
  NoDup (labels munros) -> NoDup (labels tops) ->
  exists om, matcher munros tops = Ok om /\ Forall2 (match_of tops) munros om.
Proof.
  intros HA HB HndA HndB.
  rewrite matcher_match_row by assumption.
  destruct (mapM_total (match_row tops) munros) as (om & Hom).
  { intros r _. unfold match_row.
    destruct (closest_point_first_nearest tops (geometry (snd r)) HB HndB)
      as (l & q & _ & Hq & _).
    rewrite Hq. simpl. eexists; reflexivity. }
  exists om. split; [exact Hom |].
  apply (mapM_Forall2 (match_row tops)); [| exact Hom].
  intros r m. now apply match_row_match_of.
Qed.

(** ** The partition *)

Lemma filter_select_In (c : string) (g : frame geo_row) (l : label) (p : peak) :
  In (l, p) (filter_select c g) <->
  exists r, In (l, r) g /\ csv_2021 (geo_csv r) = Some c /\ p = select r.
Proof.
  unfold filter_select. rewrite in_map_iff. split.
  - intros ([l' r] & Heq & Hin). simpl in Heq. injection Heq as -> <-.
    apply filter_In in Hin as [Hin Hc]. simpl in Hc.
    exists r. split; [exact Hin |]. split; [| reflexivity].
    unfold eq_2021 in Hc. destruct (csv_2021 (geo_csv r)) as [s |];
      [| discriminate].
    apply String.eqb_eq in Hc. now subst.
  - intros (r & Hin & Hc & ->). exists (l, r). split; [reflexivity |].
    apply filter_In. split; [exact Hin |]. simpl.
    unfold eq_2021. rewrite Hc. apply String.eqb_refl.
Qed.

Lemma filter_select_class (c : string) (g : frame geo_row) (r : label * peak) :
  In r (filter_select c g) -> y2021 (snd r) = Some c.
Proof.
  destruct r as [l p]. intros H.
  apply filter_select_In in H as (r & _ & Hc & ->). exact Hc.
Qed.

Lemma NoDup_labels_inj {T : Type} (f : frame T) (l : label) (r r' : T) :
  NoDup (labels f) -> In (l, r) f -> In (l, r') f -> r = r'.
Proof.
  intros Hnd H H'.
  pose proof (loc_In f l r Hnd H) as E.
  rewrite (loc_In f l r' Hnd H') in E. now injection E.
Qed.

Lemma filter_select_labels_disjoint (c c' : string) (g : frame geo_row) l p q :
  NoDup (labels g) ->
  In (l, p) (filter_select c g) -> In (l, q) (filter_select c' g) -> c = c'.
Proof.
  intros Hnd Hp Hq.
  apply filter_select_In in Hp as (r & Hr & Hc & _).
  apply filter_select_In in Hq as (r' & Hr' & Hc' & _).
  rewrite (NoDup_labels_inj g l r r' Hnd Hr Hr') in Hc. congruence.
Qed.

Lemma labels_geo_NoDup (rows : list csv_row) :
  NoDup (labels (munros_geo (read_csv rows))).
Proof.
  rewrite labels_munros_geo, labels_read_csv. apply seq_NoDup.
Qed.

(** C5.  Whatever the table, the two subsets of the partitioner share no
    row; every row of the first has the classification "Munro" and every
    row of the second "Munro Top", so a row of their union has one of the
    two; a row of the table whose classification is neither of the two is
    in neither subset; and in the script, whose table is indexed by
    [read_csv], the two subsets share no index label either. *)
Theorem partition_disjoint_and_exact :
  forall g : frame geo_row,
    (forall r, In r (only_munros g) -> In r (only_munro_tops g) -> False) /\
    (forall r, In r (only_munros g) -> y2021 (snd r) = Some "Munro"%string) /\
    (forall r, In r (only_munro_tops g) ->
       y2021 (snd r) = Some "Munro Top"%string) /\
    (forall r, In r (only_munros g ++ only_munro_tops g) ->
       y2021 (snd r) = Some "Munro"%string \/
       y2021 (snd r) = Some "Munro Top"%string) /\
    (forall l r, In (l, r) g ->
       csv_2021 (geo_csv r) <> Some "Munro"%string ->
       csv_2021 (geo_csv r) <> Some "Munro Top"%string ->
       ~ In (l, select r) (only_munros g) /\
       ~ In (l, select r) (only_munro_tops g)) /\
    (forall rows l,
       In l (labels (script_munros rows)) ->
       In l (labels (script_tops rows)) -> False).
Proof.
  intros g.
  assert (HA : forall r, In r (only_munros g) ->
                 y2021 (snd r) = Some "Munro"%string)
    by (intros r; apply filter_select_class).
  assert (HB : forall r, In r (only_munro_tops g) ->
                 y2021 (snd r) = Some "Munro Top"%string)
    by (intros r; apply filter_select_class).
  repeat split.
  - intros r Hr Hr'. apply HA in Hr. apply HB in Hr'.
    rewrite Hr in Hr'. discriminate.
  - exact HA.
  - exact HB.
  - intros r Hr. apply in_app_or in Hr as [Hr | Hr]; auto.
  - intros Hin. apply HA in Hin. simpl in Hin. contradiction.
  - intros Hin. apply HB in Hin. simpl in Hin. contradiction.
  - intros rows l Hl Hl'. unfold labels in Hl, Hl'.
    apply in_map_iff in Hl as ([l1 p] & E & Hp). simpl in E. subst l1.
    apply in_map_iff in Hl' as ([l1 q] & E & Hq). simpl in E. subst l1.
    pose proof (filter_select_labels_disjoint _ _ _ _ _ _
                  (labels_geo_NoDup rows) Hp Hq) as E.
    discriminate E.
Qed.

(** ** The matcher on one row *)

Lemma match_of_labels (tops munros : frame peak) (om : frame matched) :
  Forall2 (match_of tops) munros om -> labels om = labels munros.
Proof.
  intros H. apply Forall2_map_fst.
  eapply Forall2_weaken; [| exact H]. now intros ? ? [].
Qed.

Lemma matcher_row (munros tops : frame peak) (l : label) (p : peak) :
  tops <> [] -> NoDup (labels munros) -> NoDup (labels tops) ->
  In (l, p) munros ->
  exists om m,
    matcher munros tops = Ok om /\
    labels om = labels munros /\
    In (l, m) om /\
    (forall m', In (l, m') om -> m' = m) /\
    match_of tops (l, p) (l, m).
Proof.
  intros HB HndA HndB Hin.
  destruct (matcher_Ok munros tops) as (om & Hom & HF); auto.
  { intros ->. contradiction. }
  pose proof (match_of_labels _ _ _ HF) as Hlab.
  destruct (Forall2_In_l _ _ _ _ HF Hin) as ([l' m] & Hm & Hof).
  assert (l' = l) by (destruct Hof as [E _]; exact E). subst l'.
  exists om, m. repeat split; auto.
  - intros m' Hm'. apply (NoDup_labels_inj om l); auto.
    now rewrite Hlab.
  - apply Hof.
  - apply Hof.
Qed.

Lemma script_munros_NoDup (rows : list csv_row) :
  NoDup (labels (script_munros rows)).
Proof. apply labels_pipeline_NoDup. Qed.

Lemma script_tops_NoDup (rows : list csv_row) :
  NoDup (labels (script_tops rows)).
Proof. apply labels_pipeline_NoDup. Qed.

Lemma script_row (rows : list csv_row) (l : label) (p : peak) :
  script_tops rows <> [] ->
  In (l, p) (script_munros rows) ->
  exists om m,
    matcher (script_munros rows) (script_tops rows) = Ok om /\
    labels om = labels (script_munros rows) /\
    In (l, m) om /\
    (forall m', In (l, m') om -> m' = m) /\
    match_of (script_tops rows) (l, p) (l, m).
Proof.
  intros HB Hin. apply matcher_row; auto; apply labels_pipeline_NoDup.
Qed.

Lemma Rdiv_1000_le (a b : R) : a <= b -> a / 1000 <= b / 1000.
Proof. intros H. lra. Qed.

(** C1.  In the script, when there is at least one Munro Top, the matcher
    succeeds and records for every Munro [p] exactly one row; its
    [closest_distance] is not negative, it is the distance from [p] to
    some Munro Top divided by 1000, and the distance from [p] to any Munro
    Top, divided by 1000, is at least as large. *)
Theorem closest_distance_is_minimum :
  forall (rows : list csv_row) (l : label) (p : peak),
    script_tops rows <> [] ->
    In (l, p) (script_munros rows) ->
    exists om m,
      matcher (script_munros rows) (script_tops rows) = Ok om /\
      In (l, m) om /\
      (forall m', In (l, m') om -> m' = m) /\
      munro m = p /\
      0 <= closest_distance m /\
      (exists q, In q (values (script_tops rows)) /\
         closest_distance m = distance (geometry p) (geometry q) / 1000) /\
      (forall q, In q (values (script_tops rows)) ->
         closest_distance m <= distance (geometry p) (geometry q) / 1000).
Proof.
  intros rows l p HB Hin.
  destruct (script_row rows l p HB Hin)
    as (om & m & Hom & _ & Hm & Huniq & _ & Hmu & lq & q & _ & Hfn & _ & _ & Hd).
  simpl in Hmu, Hfn, Hd.
  exists om, m. repeat split; auto.
  - rewrite Hd. pose proof (distance_nonneg (geometry p) (geometry q)). lra.
  - exists q. split; [| exact Hd].
    change q with (snd (lq, q)). apply in_map.
    eapply first_nearest_In; eauto.
  - intros q' Hq'. rewrite Hd. apply Rdiv_1000_le.
    apply in_map_iff in Hq' as (r & <- & Hr).
    rewrite (distance_sym (geometry p) (geometry q)).
    rewrite (distance_sym (geometry p) (geometry (snd r))).
    eapply first_nearest_le; eauto.
Qed.

(** C2.  With no Munro Top, the lookup of the lambda raises [ValueError]
    for every Munro, the matcher ends in an exception ([ValueError] from
    the first Munro, or [KeyError] from [closest_points['Name']] when there
    is no Munro at all) and so does the script: no distance is recorded. *)
Theorem no_tops_is_an_error :
  forall rows : list csv_row,
    script_tops rows = [] ->
    (forall l p, In (l, p) (script_munros rows) ->
       closest_point (script_tops rows) (geometry p) = Err ValueError) /\
    matcher (script_munros rows) (script_tops rows)
      = Err (match script_munros rows with
             | [] => KeyError
             | _ :: _ => ValueError
             end) /\
    (forall om, matcher (script_munros rows) (script_tops rows) <> Ok om) /\
    (exists e, exploration rows = Err e).
Proof.
  intros rows HB.
  assert (HM : matcher (script_munros rows) (script_tops rows)
               = Err (match script_munros rows with
                      | [] => KeyError
                      | _ :: _ => ValueError
                      end)).
  { rewrite HB. destruct (script_munros rows) as [| r A]; reflexivity. }
  repeat split.
  - intros l p _. rewrite HB. reflexivity.
  - exact HM.
  - intros om H. rewrite HM in H. discriminate.
  - unfold exploration. fold (script_munros rows) (script_tops rows).
    rewrite HM. simpl. eexists; reflexivity.
Qed.

(** C6.  In the script, when there is at least one Munro Top, the peak
    recorded for a Munro [p] is a row [(lq, q)] of [only_munro_tops] such
    that every row before it is strictly farther from [p] and no row after
    it is nearer: among the rows at minimum distance, the first one. *)
Theorem ties_go_to_the_first_minimum :
  forall (rows : list csv_row) (l : label) (p : peak),
    script_tops rows <> [] ->
    In (l, p) (script_munros rows) ->
    exists om m lq q t1 t2,
      matcher (script_munros rows) (script_tops rows) = Ok om /\
      In (l, m) om /\
      (forall m', In (l, m') om -> m' = m) /\
      munro m = p /\
      closest_name m = Some (Name q) /\
      closest_geometry m = geometry q /\
      script_tops rows = t1 ++ (lq, q) :: t2 /\
      (forall r, In r t1 ->
         distance (geometry q) (geometry p)
         < distance (geometry (snd r)) (geometry p)) /\
      (forall r, In r t2 ->
         distance (geometry q) (geometry p)
         <= distance (geometry (snd r)) (geometry p)).
Proof.
  intros rows l p HB Hin.
  destruct (script_row rows l p HB Hin)
    as (om & m & Hom & _ & Hm & Huniq & _ & Hmu & lq & q & _ & Hfn & Hn & Hg & _).
  simpl in Hmu, Hfn, Hn, Hg.
  destruct Hfn as (t1 & t2 & Ht & H1 & H2).
  exists om, m, lq, q, t1, t2. repeat split; auto.
Qed.

(** ** The aggregator *)

Lemma py_sum_fold_right (xs : list R) : py_sum xs = fold_right Rplus 0 xs.
Proof.
  unfold py_sum. apply fold_symmetric; intros; ring.
Qed.

Lemma insert_sorted_perm (x : R) (l : list R) :
  Permutation (insert_sorted x l) (x :: l).
Proof.
  induction l as [| y l IH]; simpl; [reflexivity |].
  destruct (Rle_dec x y); [reflexivity |].
  rewrite IH. apply perm_swap.
Qed.

Lemma sorted_perm (l : list R) : Permutation (sorted l) l.
Proof.
  induction l as [| x l IH]; simpl; [reflexivity |].
  rewrite insert_sorted_perm. now constructor.
Qed.

Lemma insert_sorted_Sorted (x : R) (l : list R) :
  Sorted Rle l -> Sorted Rle (insert_sorted x l).
Proof.
  induction l as [| y l IH]; simpl; intros H.
  - repeat constructor.
  - destruct (Rle_dec x y) as [Hle | Hgt].
    + constructor; [exact H | now constructor].
    + inversion H as [| ? ? Hs Hhd]; subst.
      constructor; [now apply IH |].
      destruct l as [| z l]; simpl.
      * constructor. lra.
      * destruct (Rle_dec x z); constructor; [lra |].
        now inversion Hhd.
Qed.

Lemma sorted_Sorted (l : list R) : Sorted Rle (sorted l).
Proof.
  induction l as [| x l IH]; simpl; [constructor |].
  now apply insert_sorted_Sorted.
Qed.

Lemma Sorted_Rle_head (a : R) (l : list R) :
  Sorted Rle (a :: l) -> forall x, In x (a :: l) -> a <= x.
Proof.
  intros H x Hin.
  apply Sorted_StronglySorted in H; [| exact Rle_trans].
  inversion H as [| ? ? _ Hall]; subst.
  destruct Hin as [<- | Hin]; [lra |].
  rewrite Forall_forall in Hall. now apply Hall.
Qed.

Lemma Sorted_Rle_unique (s s' : list R) :
  Sorted Rle s -> Sorted Rle s' -> Permutation s s' -> s = s'.
Proof.
  revert s'. induction s as [| a s IH]; intros s' Hs Hs' Hp.
  - apply Permutation_nil in Hp. now subst.
  - destruct s' as [| b s'].
    + apply Permutation_sym, Permutation_nil in Hp. discriminate.
    + assert (Hab : a = b).
      { pose proof (Sorted_Rle_head _ _ Hs b) as H1.
        pose proof (Sorted_Rle_head _ _ Hs' a) as H2.
        assert (In b (a :: s))
          by (eapply Permutation_in;
              [apply Permutation_sym; exact Hp | now left]).
        assert (In a (b :: s'))
          by (eapply Permutation_in; [exact Hp | now left]).
        specialize (H1 H). specialize (H2 H0). lra. }
      subst b. f_equal.
      apply IH.
      * now inversion Hs.
      * now inversion Hs'.
      * now apply Permutation_cons_inv in Hp.
Qed.

Lemma median_odd (ds : list R) (k : nat) :
  length ds = (2 * k + 1)%nat -> median ds = Ok (nth k (sorted ds) 0).
Proof.
  intros Hlen. unfold median.
  rewrite (Permutation_length (sorted_perm ds)), Hlen.
  replace (2 * k + 1)%nat with (1 + k * 2)%nat by lia.
  rewrite Nat.Div0.mod_add, Nat.div_add by lia.
  simpl. reflexivity.
Qed.

Lemma median_even (ds : list R) (k : nat) :
  length ds = (2 * k)%nat -> k <> 0%nat ->
  median ds = Ok ((nth (k - 1) (sorted ds) 0 + nth k (sorted ds) 0) / 2).
Proof.
  intros Hlen Hk. unfold median.
  rewrite (Permutation_length (sorted_perm ds)), Hlen.
  replace (2 * k)%nat with (0 + k * 2)%nat by lia.
  rewrite Nat.Div0.mod_add, Nat.div_add by lia.
  simpl.
  destruct (Nat.eqb_spec (k * 2) 0); [lia | reflexivity].
Qed.

(** C3.  For a non-empty distance column [ds]: [dist_mean] is the sum of
    the elements of [ds] divided by their number; [ds] has exactly one
    sorted arrangement [s], and [dist_median] is the middle value [s_k] of
    [s] when the length is [2k+1], and the average of the two middle values
    [s_(k-1)] and [s_k] when the length is [2k].  In particular the mean of
    a one-element column is that element, the median of [1, 2, 3] is [2]
    and the median of [1, 2, 3, 4] is [2.5]. *)
Theorem mean_and_median_of_distances :
  forall (om : frame matched),
    om <> [] ->
    let ds := map closest_distance (values om) in
    dist_mean om = Ok (fold_right Rplus 0 ds / INR (length ds)) /\
    (exists s,
       Permutation s ds /\ Sorted Rle s /\
       (forall s', Permutation s' ds -> Sorted Rle s' -> s' = s) /\
       (forall k, length ds = (2 * k + 1)%nat ->
          dist_median om = Ok (nth k s 0)) /\
       (forall k, length ds = (2 * k)%nat ->
          dist_median om = Ok ((nth (k - 1) s 0 + nth k s 0) / 2))) /\
    (forall x, ds = [x] -> dist_mean om = Ok x) /\
    (ds = [1; 2; 3] -> dist_median om = Ok 2) /\
    (ds = [1; 2; 3; 4] -> dist_median om = Ok (5 / 2)).
Proof.
  intros om Hne ds.
  assert (Hlen : length om = length ds)
    by (unfold ds, values; now rewrite !length_map).
  assert (Hmean : dist_mean om = Ok (fold_right Rplus 0 ds / INR (length ds))).
  { unfold dist_mean. fold ds. rewrite Hlen, py_sum_fold_right.
    destruct ds as [| d ds']; [| reflexivity].
    destruct om; [contradiction | discriminate Hlen]. }
  split; [exact Hmean |]. split; [| split; [| split]].
  - exists (sorted ds). split; [apply sorted_perm |].
    split; [apply sorted_Sorted |]. split; [| split].
    + intros s' Hp Hs. apply Sorted_Rle_unique; auto using sorted_Sorted.
      rewrite Hp. symmetry. apply sorted_perm.
    + intros k Hk. unfold dist_median. fold ds. now apply median_odd.
    + intros k Hk. unfold dist_median. fold ds. apply median_even; auto.
      intros ->. simpl in Hk. rewrite <- Hlen in Hk.
      destruct om; [contradiction | discriminate Hk].
  - intros x Hx. rewrite Hmean, Hx. simpl. f_equal. field.
  - intros Hds. unfold dist_median. fold ds. rewrite Hds.
    unfold median, sorted. decide_Rle. reflexivity.
  - intros Hds. unfold dist_median. fold ds. rewrite Hds.
    unfold median, sorted. decide_Rle. simpl. f_equal. lra.
Qed.

(** C4.  When the distance column has no element, [dist_mean] raises
    [ZeroDivisionError] (the division by [len(only_munros)]) and
    [dist_median] raises [StatisticsError] (no median for empty data);
    neither returns a number. *)
Theorem mean_and_median_of_nothing :
  forall (om : frame matched),
    map closest_distance (values om) = [] ->
    dist_mean om = Err ZeroDivisionError /\
    dist_median om = Err StatisticsError /\
    (forall v, dist_mean om <> Ok v) /\
    (forall v, dist_median om <> Ok v).
Proof.
  intros om H.
  assert (om = []) as ->.
  { destruct om; [reflexivity | discriminate H]. }
  repeat split; try reflexivity; intros v; discriminate.
Qed.

(** ** The script as a whole *)



(** ** The matcher on concrete tables *)

Lemma distance_value (a b : point) (d : R) :
  0 <= d ->
  d * d = (px a - px b) * (px a - px b) + (py a - py b) * (py a - py b) ->
  distance a b = d.
Proof.
  intros Hd Hsq. unfold distance. apply sqrt_lem_1; auto.
  rewrite <- Hsq. nra.
Qed.

Lemma distance_east : distance (Point 1 0) (Point 0 0) = 1.
Proof. apply distance_value; simpl; lra. Qed.

Lemma distance_west : distance (Point (-1) 0) (Point 0 0) = 1.
Proof. apply distance_value; simpl; lra. Qed.

Lemma matcher_east_west :
  matcher (script_munros rows_east_west) (script_tops rows_east_west)
  = Ok [(0%nat, Matched peak_munro (Some "Top East"%string) (Point 1 0)
                        (distance (Point 0 0) (Point 1 0) / 1000))].
Proof.
  unfold matcher, closest_points, closest_point. simpl.
  rewrite distance_east, distance_west. decide_Rlt. reflexivity.
Qed.

Lemma matcher_west_east :
  matcher (script_munros rows_west_east) (script_tops rows_west_east)
  = Ok [(0%nat, Matched peak_munro (Some "Top West"%string) (Point (-1) 0)
                        (distance (Point 0 0) (Point (-1) 0) / 1000))].
Proof.
  unfold matcher, closest_points, closest_point. simpl.
  rewrite distance_east, distance_west. decide_Rlt. reflexivity.
Qed.

Lemma distance_near : distance (Point 3 4) (Point 0 0) = 5.
Proof. apply distance_value; simpl; lra. Qed.

Lemma distance_far : distance (Point 6 8) (Point 0 0) = 10.
Proof. apply distance_value; simpl; lra. Qed.

(** The Munro Top 5 m away is matched, at 0.005 km; mean and median of the
    one-row column are that distance. *)
Lemma exploration_near_far :
  exploration rows_near_far
  = Ok (Summary [(0%nat, Matched peak_munro (Some "Top Near"%string)
                                 (Point 3 4) (5 / 1000))]
                (5 / 1000) (5 / 1000)).
Proof.
  unfold exploration, matcher, closest_points, closest_point. simpl.
  rewrite distance_near, distance_far. decide_Rlt. simpl.
  rewrite (distance_sym (Point 0 0) (Point 3 4)), distance_near.
  unfold dist_mean, dist_median, median, py_sum. simpl.
  replace ((0 + 5 / 1000) / 1) with (5 / 1000) by field.
  reflexivity.
Qed.

(** ** The order of the Munro Tops *)

Lemma first_nearest_nearest_in tops x l q :
  first_nearest tops x l q -> nearest_in (values tops) x q.
Proof.
  intros H. split.
  - change q with (snd (l, q)). apply in_map.
    eapply first_nearest_In; eauto.
  - intros q' Hq'. apply in_map_iff in Hq' as (r & <- & Hr).
    eapply first_nearest_le; eauto.
Qed.

Lemma nearest_in_perm B B' x q :
  Permutation B B' -> nearest_in B x q -> nearest_in B' x q.
Proof.
  intros Hp [Hin Hle]. split.
  - eapply Permutation_in; eauto.
  - intros q' Hq'. apply Hle.
    eapply Permutation_in; [apply Permutation_sym; exact Hp | exact Hq'].
Qed.

Lemma nearest_in_distance B x q q' :
  nearest_in B x q -> nearest_in B x q' ->
  distance (geometry q) x = distance (geometry q') x.
Proof.
  intros [Hin Hle] [Hin' Hle'].
  specialize (Hle q' Hin'). specialize (Hle' q Hin). lra.
Qed.

(** C7, as the script has it.  Let the records of [tops'] be a
    permutation of the records of [tops] (both frames with duplicate-free
    labels, [tops] not empty).  For every row [(l, p)] of [munros] the
    matcher records one row against [tops] and one against [tops'], with
    the same [closest_distance]; and the two recorded rows are equal
    (same matched peak) whenever a single record of [tops] is at minimum
    distance from [p]. *)
Theorem permuting_tops_keeps_the_distance :
  forall (munros tops tops' : frame peak) (l : label) (p : peak),
    NoDup (labels munros) -> NoDup (labels tops) -> NoDup (labels tops') ->
    Permutation (values tops) (values tops') ->
    tops <> [] ->
    In (l, p) munros ->
    exists om om' m m',
      matcher munros tops = Ok om /\ matcher munros tops' = Ok om' /\
      In (l, m) om /\ (forall m0, In (l, m0) om -> m0 = m) /\
      In (l, m') om' /\ (forall m0, In (l, m0) om' -> m0 = m') /\
      munro m = p /\ munro m' = p /\
      closest_distance m = closest_distance m' /\
      ((forall q1 q2,
          nearest_in (values tops) (geometry p) q1 ->
          nearest_in (values tops) (geometry p) q2 -> q1 = q2) ->
       m = m').
Proof.
  intros munros tops tops' l p HndA HndB HndB' Hperm HB Hin.
  assert (HB' : tops' <> []).
  { intros ->. apply Permutation_sym, Permutation_nil in Hperm.
    destruct tops; [contradiction | discriminate]. }
  destruct (matcher_row munros tops l p HB HndA HndB Hin)
    as (om & m & Hom & _ & Hm & Hu & _ & Hmu & lq & q & _ & Hfn & Hn & Hg & Hd).
  destruct (matcher_row munros tops' l p HB' HndA HndB' Hin)
    as (om' & m' & Hom' & _ & Hm' & Hu' & _ & Hmu' & lq' & q' & _ & Hfn' & Hn' & Hg'
          & Hd').
  simpl in *.
  apply first_nearest_nearest_in in Hfn, Hfn'.
  apply (nearest_in_perm _ _ _ _ (Permutation_sym Hperm)) in Hfn'.
  pose proof (nearest_in_distance _ _ _ _ Hfn Hfn') as Hdd.
  exists om, om', m, m'. repeat split; auto.
  - rewrite Hd, Hd'.
    rewrite (distance_sym (geometry p) (geometry q)).
    rewrite (distance_sym (geometry p) (geometry q')).
    now rewrite Hdd.
  - intros Huniq. specialize (Huniq q q' Hfn Hfn'). subst q'.
    destruct m, m'. simpl in *. congruence.
Qed.

(** C7, as the spec has it, fails.  The two files [rows_east_west] and
    [rows_west_east] hold the same Munro and the same two Munro Tops, both
    one metre from it; swapping the two Munro Top rows (in the file, or in
    the frame [only_munro_tops] itself) changes the peak recorded for the
    Munro from "Top East" to "Top West". *)
Lemma order_of_tops_changes_the_match :
  script_munros rows_east_west = script_munros rows_west_east /\
  Permutation (values (script_tops rows_east_west))
              (values (script_tops rows_west_east)) /\
  Permutation (script_tops rows_east_west) (rev (script_tops rows_east_west)) /\
  exists m m' m'',
    matcher (script_munros rows_east_west) (script_tops rows_east_west)
      = Ok [(0%nat, m)] /\
    matcher (script_munros rows_west_east) (script_tops rows_west_east)
      = Ok [(0%nat, m')] /\
    matcher (script_munros rows_east_west) (rev (script_tops rows_east_west))
      = Ok [(0%nat, m'')] /\
    closest_name m = Some "Top East"%string /\
    closest_name m' = Some "Top West"%string /\
    closest_name m'' = Some "Top West"%string /\
    closest_geometry m = Point 1 0 /\
    closest_geometry m' = Point (-1) 0 /\
    closest_geometry m'' = Point (-1) 0 /\
    m <> m' /\ m <> m''.
Proof.
  split; [reflexivity |]. split; [apply perm_swap |].
  split; [apply Permutation_rev |].
  eexists _, _, _.
  split; [apply matcher_east_west |].
  split; [apply matcher_west_east |].
  split.
  { unfold matcher, closest_points, closest_point. simpl.
    rewrite distance_east, distance_west. decide_Rlt. reflexivity. }
  simpl. repeat split; discriminate.
Qed.

(** ** One recorded row per Munro *)

Lemma match_of_munros (tops munros : frame peak) (om : frame matched) :
  Forall2 (match_of tops) munros om -> map munro (values om) = values munros.
Proof.
  unfold values.
  induction 1 as [| r m A om' Hof _ IH]; simpl; [reflexivity |].
  destruct Hof as (_ & -> & _). now rewrite IH.
Qed.

(** C8.  In the script, when there is at least one Munro Top: with at
    least one Munro the matcher succeeds, with none it stops at
    [closest_points['Name']] and records nothing; and whenever it succeeds
    its output has the index of [only_munros] and the rows of
    [only_munros], one recorded distance per Munro, so that the quotient
    computed by the script, the sum of the distances divided by the number
    of rows, is the sum of the distances divided by their count. *)
Theorem one_distance_per_munro :
  forall rows : list csv_row,
    script_tops rows <> [] ->
    (script_munros rows = [] ->
       matcher (script_munros rows) (script_tops rows) = Err KeyError) /\
    (script_munros rows <> [] ->
       exists om, matcher (script_munros rows) (script_tops rows) = Ok om) /\
    (forall om,
       matcher (script_munros rows) (script_tops rows) = Ok om ->
       let ds := map closest_distance (values om) in
       labels om = labels (script_munros rows) /\
       map munro (values om) = values (script_munros rows) /\
       length ds = length (script_munros rows) /\
       dist_mean om = Ok (py_sum ds / INR (length (script_munros rows))) /\
       dist_mean om = Ok (fold_right Rplus 0 ds / INR (length ds))).
Proof.
  intros rows HB. split; [| split].
  - intros ->. reflexivity.
  - intros HA.
    destruct (matcher_Ok (script_munros rows) (script_tops rows))
      as (om & Hom & _);
      auto using script_munros_NoDup, script_tops_NoDup.
    now exists om.
  - intros om Hom ds.
    destruct (script_munros rows) as [| r A] eqn:EA; [discriminate Hom |].
    destruct (matcher_Ok (script_munros rows) (script_tops rows))
      as (om' & Hom' & HF);
      auto using script_munros_NoDup, script_tops_NoDup.
    { rewrite EA. discriminate. }
    rewrite EA in Hom', HF. rewrite Hom in Hom'. injection Hom' as <-.
    pose proof (Forall2_length HF) as Hlen.
    assert (Hds : length ds = length (r :: A))
      by (unfold ds, values; now rewrite !length_map).
    split; [eapply match_of_labels; eauto |].
    split; [eapply match_of_munros; eauto |].
    split; [exact Hds |].
    unfold dist_mean. fold ds. rewrite <- Hlen.
    split; [reflexivity |].
    rewrite py_sum_fold_right, Hds. reflexivity.
Qed.

(** ** Kilometres first, or metres first *)

Lemma fold_left_Rmin_le (l : list R) (x : R) :
  fold_left Rmin l x <= x /\ forall y, In y l -> fold_left Rmin l x <= y.
Proof.
  revert x. induction l as [| a l IH]; intros x; simpl.
  - split; [lra | contradiction].
  - destruct (IH (Rmin x a)) as [H1 H2].
    pose proof (Rmin_l x a). pose proof (Rmin_r x a).
    split; [lra |].
    intros y [<- | Hy]; [lra | auto].
Qed.

Lemma fold_left_Rmin_In (l : list R) (x : R) :
  In (fold_left Rmin l x) (x :: l).
Proof.
  revert x. induction l as [| a l IH]; intros x; simpl; [now left |].
  destruct (IH (Rmin x a)) as [H | H]; [| now right; right].
  rewrite <- H. unfold Rmin. destruct (Rle_dec x a); auto.
Qed.

Lemma argmin_from_in_km (s : list (label * R)) (best : label * R) :
  argmin_from (in_km best) (map in_km s) = in_km (argmin_from best s).
Proof.
  revert best. induction s as [| e s IH]; intros best; simpl; [reflexivity |].
  destruct (Rlt_dec (snd e / 1000) (snd best / 1000)) as [H | H],
           (Rlt_dec (snd e) (snd best)) as [H' | H']; try lra; apply IH.
Qed.

Lemma idxmin_in_km (s : list (label * R)) :
  idxmin (map in_km s) = idxmin s.
Proof.
  destruct s as [| e s]; simpl; [reflexivity |].
  now rewrite argmin_from_in_km.
Qed.

Lemma km_series_distance_series (tops : frame peak) (x : point) :
  km_series tops x = map in_km (distance_series tops x).
Proof.
  unfold km_series, distance_series. rewrite map_map.
  apply map_ext. intros r. unfold in_km. simpl.
  now rewrite distance_sym.
Qed.

(** C9.  In the script, when there is at least one Munro Top, for every
    Munro [p] the [closest_distance] recorded by the two phases is the
    minimum of the kilometre distances from [p] to the Munro Tops; the
    label selected on the metre distances is the label [idxmin] selects on
    the kilometre distances; and the distance recomputed from [p] to the
    stored geometry is the entry of the metre series at that label. *)
Theorem two_phases_give_the_minimum_in_km :
  forall (rows : list csv_row) (l : label) (p : peak),
    script_tops rows <> [] ->
    In (l, p) (script_munros rows) ->
    exists om m lq,
      matcher (script_munros rows) (script_tops rows) = Ok om /\
      In (l, m) om /\
      (forall m', In (l, m') om -> m' = m) /\
      munro m = p /\
      direct_min_km (script_tops rows) (geometry p)
        = Ok (closest_distance m) /\
      idxmin (distance_series (script_tops rows) (geometry p)) = Ok lq /\
      idxmin (km_series (script_tops rows) (geometry p)) = Ok lq /\
      aligned (distance_series (script_tops rows) (geometry p)) lq
        = Some (distance (geometry p) (closest_geometry m)) /\
      closest_distance m = distance (geometry p) (closest_geometry m) / 1000.
Proof.
  intros rows l p HB Hin.
  destruct (script_row rows l p HB Hin)
    as (om & m & Hom & _ & Hm & Huniq & _ & Hmu & lq & q & Hlq & Hfn & _ & Hg
        & Hd).
  simpl in Hmu, Hlq, Hfn, Hg, Hd.
  exists om, m, lq. repeat split; auto.
  - unfold direct_min_km.
    destruct (map snd (km_series (script_tops rows) (geometry p)))
      as [| d ds] eqn:E.
    { destruct (script_tops rows); [contradiction | discriminate E]. }
    f_equal.
    assert (Hall : forall y, In y (d :: ds) -> closest_distance m <= y).
    { intros y Hy. rewrite <- E in Hy.
      apply in_map_iff in Hy as (e & <- & He).
      apply in_map_iff in He as (r & <- & Hr). simpl.
      rewrite Hd. apply Rdiv_1000_le.
      rewrite (distance_sym (geometry p) (geometry q)).
      rewrite (distance_sym (geometry p) (geometry (snd r))).
      eapply first_nearest_le; eauto. }
    assert (Hmem : In (closest_distance m) (d :: ds)).
    { rewrite <- E. apply in_map_iff.
      exists (lq, distance (geometry p) (geometry q) / 1000).
      split; [simpl; now rewrite Hd |].
      apply in_map_iff. exists (lq, q). split; [reflexivity |].
      eapply first_nearest_In; eauto. }
    pose proof (fold_left_Rmin_le ds d) as [H1 H2].
    pose proof (Hall _ (fold_left_Rmin_In ds d)) as H3.
    destruct Hmem as [Hmem | Hmem]; [lra |].
    specialize (H2 _ Hmem). lra.
  - rewrite km_series_distance_series. now rewrite idxmin_in_km.
  - apply aligned_In.
    + unfold distance_series. rewrite map_map. simpl.
      apply script_tops_NoDup.
    + rewrite Hg, distance_sym. unfold distance_series.
      apply in_map_iff. exists (lq, q). split; [reflexivity |].
      eapply first_nearest_In; eauto.
  - now rewrite Hg.
Qed.

(** ** A Munro is never matched to itself *)

Lemma script_labels_disjoint (rows : list csv_row) (l : label) (p q : peak) :
  In (l, p) (script_munros rows) -> In (l, q) (script_tops rows) -> False.
Proof.
  intros Hp Hq.
  pose proof (filter_select_labels_disjoint _ _ _ _ _ _
                (labels_geo_NoDup rows) Hp Hq) as E.
  discriminate E.
Qed.

Lemma matcher_twins :
  matcher (script_munros rows_twins) (script_tops rows_twins)
  = Ok [(0%nat, Matched peak_twin (Some "Twin Top"%string) (Point 5 7)
                        (distance (Point 5 7) (Point 5 7) / 1000))].
Proof. reflexivity. Qed.

(** C10.  In the script, when there is at least one Munro Top, the row
    recorded for a Munro [(l, p)] pairs [p], classified "Munro", with a row
    [(lq, q)] of [only_munro_tops], classified "Munro Top": the row the
    lookup selected, whose name and geometry are the ones recorded.  Its
    label [lq] is not [l] and its record [q] is not [p].  A recorded
    distance of 0 does occur: in [rows_twins] the Munro of label 0 and the
    Munro Top of label 1 have the same coordinates. *)
Theorem a_munro_is_matched_to_another_row :
  (forall (rows : list csv_row) (l : label) (p : peak),
     script_tops rows <> [] ->
     In (l, p) (script_munros rows) ->
     exists om m lq q,
       matcher (script_munros rows) (script_tops rows) = Ok om /\
       In (l, m) om /\
       (forall m', In (l, m') om -> m' = m) /\
       munro m = p /\
       y2021 p = Some "Munro"%string /\
       idxmin (distance_series (script_tops rows) (geometry p)) = Ok lq /\
       In (lq, q) (script_tops rows) /\
       y2021 q = Some "Munro Top"%string /\
       closest_name m = Some (Name q) /\
       closest_geometry m = geometry q /\
       lq <> l /\ q <> p) /\
  (exists m,
     matcher (script_munros rows_twins) (script_tops rows_twins)
       = Ok [(0%nat, m)] /\
     In (0%nat, munro m) (script_munros rows_twins) /\
     In (1%nat, peak_twin_top) (script_tops rows_twins) /\
     closest_name m = Some (Name peak_twin_top) /\
     closest_geometry m = geometry (munro m) /\
     closest_distance m = 0).
Proof.
  split.
  - intros rows l p HB Hin.
    destruct (script_row rows l p HB Hin)
      as (om & m & Hom & _ & Hm & Huniq & _ & Hmu & lq & q & Hlq & Hfn & Hn
          & Hg & _).
    simpl in Hmu, Hlq, Hfn, Hn, Hg.
    pose proof (first_nearest_In _ _ _ _ Hfn) as Hq.
    pose proof (filter_select_class _ _ _ Hin) as Hcp.
    pose proof (filter_select_class _ _ _ Hq) as Hcq.
    simpl in Hcp, Hcq.
    exists om, m, lq, q. repeat split; auto.
    + intros ->. exact (script_labels_disjoint rows l p q Hin Hq).
    + intros ->. rewrite Hcp in Hcq. discriminate.
  - eexists. split; [apply matcher_twins |]. simpl.
    repeat split; auto.
    rewrite distance_self. lra.
Qed.

(** ** The theorems at concrete tables *)

Lemma nearest_in_near_far (q : peak) :
  nearest_in (values (script_tops rows_near_far)) (Point 0 0) q ->
  q = peak_near.
Proof.
  intros [[<- | [<- | []]] Hle]; [reflexivity |].
  exfalso. specialize (Hle peak_near (or_introl eq_refl)).
  simpl in Hle. rewrite distance_near, distance_far in Hle. lra.
Qed.

Lemma closest_distance_is_minimum_witness :
  script_tops rows_east_west <> [] /\
  In (0%nat, peak_munro) (script_munros rows_east_west) /\
  exists om m,
    matcher (script_munros rows_east_west) (script_tops rows_east_west)
      = Ok om /\
    In (0%nat, m) om /\
    (forall m', In (0%nat, m') om -> m' = m) /\
    munro m = peak_munro /\
    0 <= closest_distance m /\
    (exists q, In q (values (script_tops rows_east_west)) /\
       closest_distance m
       = distance (geometry peak_munro) (geometry q) / 1000) /\
    (forall q, In q (values (script_tops rows_east_west)) ->
       closest_distance m
       <= distance (geometry peak_munro) (geometry q) / 1000).
Proof.
  assert (H1 : script_tops rows_east_west <> []) by discriminate.
  assert (H2 : In (0%nat, peak_munro) (script_munros rows_east_west))
    by (left; reflexivity).
  split; [exact H1 |]. split; [exact H2 |].
  exact (closest_distance_is_minimum rows_east_west 0%nat peak_munro H1 H2).
Defined.

Lemma no_tops_is_an_error_witness :
  script_tops rows_no_top = [] /\
  (forall l p, In (l, p) (script_munros rows_no_top) ->
     closest_point (script_tops rows_no_top) (geometry p) = Err ValueError) /\
  matcher (script_munros rows_no_top) (script_tops rows_no_top)
    = Err (match script_munros rows_no_top with
           | [] => KeyError
           | _ :: _ => ValueError
           end) /\
  (forall om,
     matcher (script_munros rows_no_top) (script_tops rows_no_top) <> Ok om) /\
  (exists e, exploration rows_no_top = Err e).
Proof.
  split; [reflexivity |].
  exact (no_tops_is_an_error rows_no_top eq_refl).
Defined.

Lemma mean_and_median_of_distances_witness :
  om_123 <> [] /\
  dist_mean om_123 = Ok (fold_right Rplus 0 [1; 2; 3] / INR 3) /\
  dist_median om_123 = Ok 2.
Proof.
  assert (H : om_123 <> []) by discriminate.
  split; [exact H |].
  destruct (mean_and_median_of_distances om_123 H) as (Hmean & _ & _ & H123 & _).
  split; [exact Hmean | exact (H123 eq_refl)].
Defined.

Lemma mean_and_median_of_nothing_witness :
  map closest_distance (values (@nil (label * matched))) = [] /\
  dist_mean [] = Err ZeroDivisionError /\
  dist_median [] = Err StatisticsError /\
  (forall v, dist_mean [] <> Ok v) /\
  (forall v, dist_median [] <> Ok v).
Proof.
  split; [reflexivity |].
  exact (mean_and_median_of_nothing [] eq_refl).
Defined.

Lemma ties_go_to_the_first_minimum_witness :
  script_tops rows_east_west <> [] /\
  In (0%nat, peak_munro) (script_munros rows_east_west) /\
  exists om m lq q t1 t2,
    matcher (script_munros rows_east_west) (script_tops rows_east_west)
      = Ok om /\
    In (0%nat, m) om /\
    (forall m', In (0%nat, m') om -> m' = m) /\
    munro m = peak_munro /\
    closest_name m = Some (Name q) /\
    closest_geometry m = geometry q /\
    script_tops rows_east_west = t1 ++ (lq, q) :: t2 /\
    (forall r, In r t1 ->
       distance (geometry q) (geometry peak_munro)
       < distance (geometry (snd r)) (geometry peak_munro)) /\
    (forall r, In r t2 ->
       distance (geometry q) (geometry peak_munro)
       <= distance (geometry (snd r)) (geometry peak_munro)).
Proof.
  assert (H1 : script_tops rows_east_west <> []) by discriminate.
  assert (H2 : In (0%nat, peak_munro) (script_munros rows_east_west))
    by (left; reflexivity).
  split; [exact H1 |]. split; [exact H2 |].
  exact (ties_go_to_the_first_minimum rows_east_west 0%nat peak_munro H1 H2).
Defined.

Lemma permuting_tops_keeps_the_distance_witness :
  NoDup (labels (script_munros rows_near_far)) /\
  NoDup (labels (script_tops rows_near_far)) /\
  NoDup (labels (rev (script_tops rows_near_far))) /\
  Permutation (values (script_tops rows_near_far))
              (values (rev (script_tops rows_near_far))) /\
  script_tops rows_near_far <> [] /\
  In (0%nat, peak_munro) (script_munros rows_near_far) /\
  exists om om' m,
    matcher (script_munros rows_near_far) (script_tops rows_near_far)
      = Ok om /\
    matcher (script_munros rows_near_far) (rev (script_tops rows_near_far))
      = Ok om' /\
    In (0%nat, m) om /\ In (0%nat, m) om' /\ munro m = peak_munro.
Proof.
  assert (H1 : NoDup (labels (script_munros rows_near_far)))
    by apply script_munros_NoDup.
  assert (H2 : NoDup (labels (script_tops rows_near_far)))
    by apply script_tops_NoDup.
  assert (H3 : NoDup (labels (rev (script_tops rows_near_far)))).
  { simpl. repeat constructor; simpl; intuition discriminate. }
  assert (H4 : Permutation (values (script_tops rows_near_far))
                           (values (rev (script_tops rows_near_far))))
    by apply perm_swap.
  assert (H5 : script_tops rows_near_far <> []) by discriminate.
  assert (H6 : In (0%nat, peak_munro) (script_munros rows_near_far))
    by (left; reflexivity).
  repeat (split; [assumption |]).
  destruct (permuting_tops_keeps_the_distance _ _ _ 0%nat peak_munro
              H1 H2 H3 H4 H5 H6)
    as (om & om' & m & m' & Hom & Hom' & Hm & _ & Hm' & _ & Hmu & _ & _ & Heq).
  assert (E : m = m').
  { apply Heq. intros q1 q2 Hq1 Hq2.
    rewrite (nearest_in_near_far q1 Hq1).
    now rewrite (nearest_in_near_far q2 Hq2). }
  subst m'. exists om, om', m. repeat split; assumption.
Defined.

Lemma one_distance_per_munro_witness :
  script_tops rows_east_west <> [] /\
  exists om,
    matcher (script_munros rows_east_west) (script_tops rows_east_west)
      = Ok om /\
    length (map closest_distance (values om))
      = length (script_munros rows_east_west) /\
    dist_mean om
      = Ok (fold_right Rplus 0 (map closest_distance (values om))
            / INR (length (map closest_distance (values om)))).
Proof.
  assert (H : script_tops rows_east_west <> []) by discriminate.
  split; [exact H |].
  destruct (one_distance_per_munro rows_east_west H) as (_ & Hex & Hall).
  destruct Hex as (om & Hom); [discriminate |].
  destruct (Hall om Hom) as (_ & _ & Hlen & _ & Hmean).
  exists om. repeat split; assumption.
Defined.

Lemma two_phases_give_the_minimum_in_km_witness :
  script_tops rows_near_far <> [] /\
  In (0%nat, peak_munro) (script_munros rows_near_far) /\
  exists om m lq,
    matcher (script_munros rows_near_far) (script_tops rows_near_far)
      = Ok om /\
    In (0%nat, m) om /\
    (forall m', In (0%nat, m') om -> m' = m) /\
    munro m = peak_munro /\
    direct_min_km (script_tops rows_near_far) (geometry peak_munro)
      = Ok (closest_distance m) /\
    idxmin (distance_series (script_tops rows_near_far) (geometry peak_munro))
      = Ok lq /\
    idxmin (km_series (script_tops rows_near_far) (geometry peak_munro))
      = Ok lq /\
    aligned (distance_series (script_tops rows_near_far) (geometry peak_munro))
            lq
      = Some (distance (geometry peak_munro) (closest_geometry m)) /\
    closest_distance m
      = distance (geometry peak_munro) (closest_geometry m) / 1000.
Proof.
  assert (H1 : script_tops rows_near_far <> []) by discriminate.
  assert (H2 : In (0%nat, peak_munro) (script_munros rows_near_far))
    by (left; reflexivity).
  split; [exact H1 |]. split; [exact H2 |].
  exact (two_phases_give_the_minimum_in_km rows_near_far 0%nat peak_munro
           H1 H2).
Defined.

Lemma a_munro_is_matched_to_another_row_witness :
  script_tops rows_twins <> [] /\
  In (0%nat, peak_twin) (script_munros rows_twins) /\
  exists om m lq q,
    matcher (script_munros rows_twins) (script_tops rows_twins) = Ok om /\
    In (0%nat, m) om /\
    munro m = peak_twin /\
    In (lq, q) (script_tops rows_twins) /\
    closest_name m = Some (Name q) /\
    closest_geometry m = geometry q /\
    lq <> 0%nat /\ q <> peak_twin.
Proof.
  assert (H1 : script_tops rows_twins <> []) by discriminate.
  assert (H2 : In (0%nat, peak_twin) (script_munros rows_twins))
    by (left; reflexivity).
  split; [exact H1 |]. split; [exact H2 |].
  destruct (proj1 a_munro_is_matched_to_another_row rows_twins 0%nat peak_twin
              H1 H2)
    as (om & m & lq & q & Hom & Hm & _ & Hmu & _ & _ & Hq & _ & Hn & Hg & Hl
        & Hne).
  exists om, m, lq, q. repeat split; assumption.
Defined.

(** * Further properties of the script *)

(** ** From the file to the two subsets *)

Lemma In_combine_seq {T : Type} (rows : list T) (a l : nat) (r : T) :
  In (l, r) (combine (seq a (length rows)) rows) <->
  (a <= l)%nat /\ nth_error rows (l - a) = Some r.
Proof.
  revert a. induction rows as [| r0 rows IH]; intros a; simpl.
  - split; [contradiction |]. intros [_ H].
    destruct (l - a)%nat; discriminate H.
  - rewrite IH. split.
    + intros [H | [Hle H]].
      * injection H as -> ->. split; [lia |].
        now rewrite Nat.sub_diag.
      * split; [lia |].
        replace (l - a)%nat with (S (l - S a)) by lia. exact H.
    + intros [Hle H].
      destruct (Nat.eq_dec a l) as [-> | Hne].
      * rewrite Nat.sub_diag in H. simpl in H. injection H as ->. now left.
      * right. split; [lia |].
        replace (l - a)%nat with (S (l - S a)) in H by lia. exact H.
Qed.

Lemma In_read_csv (rows : list csv_row) (l : label) (r : csv_row) :
  In (l, r) (read_csv rows) <-> nth_error rows l = Some r.
Proof.
  unfold read_csv. rewrite In_combine_seq, Nat.sub_0_r.
  split; [now intros [_ H] | intros H; split; [lia | exact H]].
Qed.

Lemma In_munros_geo (m : frame csv_row) (l : label) (g : geo_row) :
  In (l, g) (munros_geo m) <->
  exists r, In (l, r) m /\ g = GeoRow r (Point (xcoord r) (ycoord r)).
Proof.
  unfold munros_geo. rewrite in_map_iff. split.
  - intros ([l' r] & E & Hin). simpl in E. injection E as -> <-.
    now exists r.
  - intros (r & Hin & ->). now exists (l, r).
Qed.

Lemma In_script_subset (c : string) (rows : list csv_row) (l : label) (p : peak) :
  In (l, p) (filter_select c (munros_geo (read_csv rows))) <->
  exists r, nth_error rows l = Some r /\ csv_2021 r = Some c /\ p = to_peak r.
Proof.
  rewrite filter_select_In. split.
  - intros (g & Hg & Hc & ->).
    apply In_munros_geo in Hg as (r & Hr & ->).
    apply In_read_csv in Hr. now exists r.
  - intros (r & Hr & Hc & ->).
    exists (GeoRow r (Point (xcoord r) (ycoord r))).
    split; [| split; [exact Hc | reflexivity]].
    apply In_munros_geo. exists r. split; [| reflexivity].
    now apply In_read_csv.
Qed.

(** X1.  A row is in [only_munros] under the label [l] exactly when line
    [l] of the file is classified "Munro", and then it is that line: its
    four selected columns unchanged and the point of its two coordinates
    as geometry.  The same holds of [only_munro_tops] and "Munro Top". *)
Theorem subsets_are_the_classified_lines :
  forall (rows : list csv_row) (l : label) (p : peak),
    (In (l, p) (script_munros rows) <->
     exists r, nth_error rows l = Some r /\
               csv_2021 r = Some "Munro"%string /\
               p = Peak (csv_Name r) (csv_Height_m r) (csv_Height_ft r)
                        (csv_2021 r) (Point (xcoord r) (ycoord r))) /\
    (In (l, p) (script_tops rows) <->
     exists r, nth_error rows l = Some r /\
               csv_2021 r = Some "Munro Top"%string /\
               p = Peak (csv_Name r) (csv_Height_m r) (csv_Height_ft r)
                        (csv_2021 r) (Point (xcoord r) (ycoord r))).
Proof.
  intros rows l p. split; apply In_script_subset.
Qed.

Lemma values_filter_select_from (c : string) (rows : list csv_row) (a : nat) :
  values (filter_select c (munros_geo (combine (seq a (length rows)) rows)))
  = map to_peak (filter (has_class c) rows).
Proof.
  revert a. induction rows as [| r rows IH]; intros a; [reflexivity |].
  specialize (IH (S a)).
  unfold values, filter_select, munros_geo in *. simpl.
  fold (has_class c r).
  destruct (has_class c r); simpl; [f_equal |]; exact IH.
Qed.

Lemma StronglySorted_lt_seq (a n : nat) : StronglySorted lt (seq a n).
Proof.
  revert a. induction n as [| n IH]; intros a; simpl; constructor; auto.
  apply Forall_forall. intros x Hx. apply in_seq in Hx. lia.
Qed.

Lemma StronglySorted_labels_filter {T : Type} (p : label * T -> bool)
    (f : frame T) :
  StronglySorted lt (map fst f) -> StronglySorted lt (map fst (filter p f)).
Proof.
  induction f as [| r f IH]; simpl; intros H; [constructor |].
  inversion H as [| ? ? Hs Hall]; subst.
  destruct (p r); simpl; auto.
  constructor; auto.
  rewrite Forall_forall in *. intros x Hx. apply Hall.
  apply in_map_iff in Hx as (r' & <- & Hr').
  apply filter_In in Hr' as [Hr' _]. now apply in_map.
Qed.

Lemma labels_script_subset_sorted (c : string) (rows : list csv_row) :
  StronglySorted lt (labels (filter_select c (munros_geo (read_csv rows)))).
Proof.
  rewrite labels_filter_select. apply StronglySorted_labels_filter.
  fold (labels (munros_geo (read_csv rows))).
  rewrite labels_munros_geo, labels_read_csv.
  apply StronglySorted_lt_seq.
Qed.

(** X2.  The two filters keep the order of the file: the rows of
    [only_munros] are the lines classified "Munro", in file order, those of
    [only_munro_tops] the lines classified "Munro Top", in file order, and
    the index labels of both frames are strictly increasing. *)
Theorem subsets_keep_the_file_order :
  forall rows : list csv_row,
    values (script_munros rows)
      = map to_peak (filter (has_class "Munro") rows) /\
    values (script_tops rows)
      = map to_peak (filter (has_class "Munro Top") rows) /\
    StronglySorted lt (labels (script_munros rows)) /\
    StronglySorted lt (labels (script_tops rows)).
Proof.
  intros rows. repeat split.
  - apply (values_filter_select_from "Munro" rows 0).
  - apply (values_filter_select_from "Munro Top" rows 0).
  - apply labels_script_subset_sorted.
  - apply labels_script_subset_sorted.
Qed.

Lemma has_class_exclusive (r : csv_row) :
  has_class "Munro" r = true -> has_class "Munro Top" r = true -> False.
Proof.
  unfold has_class, eq_2021. simpl.
  destruct (csv_2021 r) as [s |]; [| discriminate].
  intros H H'. apply String.eqb_eq in H, H'. subst. discriminate.
Qed.

Lemma length_values {T : Type} (f : frame T) : length (values f) = length f.
Proof. unfold values. apply length_map. Qed.

(** X3.  Every line of the file is counted once: the number of rows of
    [only_munros], the number of rows of [only_munro_tops] and the number
    of lines with neither classification (dropped by both filters) add up
    to the number of lines. *)
Theorem subsets_and_dropped_lines_count :
  forall rows : list csv_row,
    (length (script_munros rows) + length (script_tops rows)
     + length (filter (fun r => negb (has_class "Munro" r)
                                && negb (has_class "Munro Top" r)) rows)
     = length rows)%nat.
Proof.
  intros rows.
  rewrite <- (length_values (script_munros rows)).
  rewrite <- (length_values (script_tops rows)).
  unfold script_munros, script_tops, only_munros, only_munro_tops, read_csv.
  rewrite !values_filter_select_from, !length_map.
  induction rows as [| r rows IH]; [reflexivity |]. simpl.
  pose proof (has_class_exclusive r) as Hex.
  destruct (has_class "Munro" r), (has_class "Munro Top" r); simpl; try lia.
  all: exfalso; now apply Hex.
Qed.

(** ** How the script ends *)



(** ** The matcher, Munro by Munro *)

Lemma mapM_app {T U : Type} (f : T -> result U) (l1 l2 : list T) :
  mapM f (l1 ++ l2)
  = (ys1 <- mapM f l1 ;; ys2 <- mapM f l2 ;; Ok (ys1 ++ ys2)).
Proof.
  induction l1 as [| x l1 IH]; simpl.
  - destruct (mapM f l2); reflexivity.
  - destruct (f x) as [y | e]; simpl; [| reflexivity].
    rewrite IH.
    destruct (mapM f l1) as [ys1 | e]; simpl; [| reflexivity].
    destruct (mapM f l2); reflexivity.
Qed.

(** X5.  What the matcher records for a Munro does not depend on the
    other Munros: on a frame made of two non-empty parts (with a
    duplicate-free index) it gives the rows of the first part followed by
    the rows of the second, and it raises what the first failing part
    raises. *)
Theorem matcher_of_two_parts :
  forall (part1 part2 tops : frame peak),
    part1 <> [] -> part2 <> [] ->
    NoDup (labels (part1 ++ part2)) ->
    matcher (part1 ++ part2) tops
    = (om1 <- matcher part1 tops ;;
       om2 <- matcher part2 tops ;;
       Ok (om1 ++ om2)).
Proof.
  intros part1 part2 tops H1 H2 Hnd.
  assert (Hnd' := Hnd). unfold labels in Hnd'. rewrite map_app in Hnd'.
  rewrite (matcher_match_row (part1 ++ part2)); auto.
  - rewrite (matcher_match_row part1), (matcher_match_row part2); auto.
    + apply mapM_app.
    + eapply NoDup_app_remove_l; exact Hnd'.
    + eapply NoDup_app_remove_r; exact Hnd'.
  - destruct part1; [contradiction | discriminate].
Qed.

(** X6.  More Munro Tops never make a recorded distance larger: when
    every record of [tops] is also a record of [tops'], the distance
    recorded for a Munro against [tops'] is at most the one recorded
    against [tops]. *)
Theorem more_tops_never_farther :
  forall (munros tops tops' : frame peak) (l : label) (p : peak),
    NoDup (labels munros) -> NoDup (labels tops) -> NoDup (labels tops') ->
    tops <> [] ->
    incl (values tops) (values tops') ->
    In (l, p) munros ->
    exists om om' m m',
      matcher munros tops = Ok om /\ matcher munros tops' = Ok om' /\
      In (l, m) om /\ In (l, m') om' /\
      munro m = p /\ munro m' = p /\
      closest_distance m' <= closest_distance m.
Proof.
  intros munros tops tops' l p HndA HndB HndB' HB Hincl Hin.
  destruct (matcher_row munros tops l p HB HndA HndB Hin)
    as (om & m & Hom & _ & Hm & _ & _ & Hmu & lq & q & _ & Hfn & _ & _ & Hd).
  assert (HB' : tops' <> []).
  { intros ->. pose proof (first_nearest_nearest_in _ _ _ _ Hfn) as [Hq _].
    exact (Hincl _ Hq). }
  destruct (matcher_row munros tops' l p HB' HndA HndB' Hin)
    as (om' & m' & Hom' & _ & Hm' & _ & _ & Hmu' & lq' & q' & _ & Hfn' & _ & _
        & Hd').
  simpl in *.
  exists om, om', m, m'. repeat split; auto.
  rewrite Hd, Hd'. apply Rdiv_1000_le.
  apply first_nearest_nearest_in in Hfn as [Hq _].
  apply first_nearest_nearest_in in Hfn' as [_ Hle'].
  rewrite (distance_sym (geometry p) (geometry q')).
  rewrite (distance_sym (geometry p) (geometry q)).
  apply Hle'. now apply Hincl.
Qed.

Lemma distance_zero (a b : point) : distance a b = 0 <-> a = b.
Proof.
  split.
  - intros H. unfold distance in H.
    destruct a as [ax ay], b as [bx b_y]. simpl in H.
    pose proof (Rle_0_sqr (ax - bx)) as Hx.
    pose proof (Rle_0_sqr (ay - b_y)) as Hy.
    unfold Rsqr in Hx, Hy.
    apply sqrt_eq_0 in H; [| lra].
    assert (Ex : Rsqr (ax - bx) = 0) by (unfold Rsqr; lra).
    assert (Ey : Rsqr (ay - b_y) = 0) by (unfold Rsqr; lra).
    apply Rsqr_0_uniq in Ex, Ey.
    f_equal; lra.
  - intros ->. apply distance_self.
Qed.

(** X7.  In the script, with at least one Munro Top, the distance
    recorded for a Munro is 0 exactly when some Munro Top has the Munro's
    coordinates. *)
Theorem zero_distance_means_same_coordinates :
  forall (rows : list csv_row) (l : label) (p : peak),
    script_tops rows <> [] ->
    In (l, p) (script_munros rows) ->
    exists om m,
      matcher (script_munros rows) (script_tops rows) = Ok om /\
      In (l, m) om /\
      (forall m', In (l, m') om -> m' = m) /\
      munro m = p /\
      (closest_distance m = 0 <->
       exists q, In q (values (script_tops rows)) /\ geometry q = geometry p).
Proof.
  intros rows l p HB Hin.
  destruct (script_row rows l p HB Hin)
    as (om & m & Hom & _ & Hm & Huniq & _ & Hmu & lq & q & _ & Hfn & _ & _ & Hd).
  simpl in Hmu, Hfn, Hd.
  apply first_nearest_nearest_in in Hfn as [Hq Hle].
  exists om, m. repeat split; auto.
  - intros H0. exists q. split; [exact Hq |].
    symmetry. apply distance_zero. rewrite Hd in H0. lra.
  - intros (q' & Hq' & Hg).
    specialize (Hle q' Hq'). rewrite Hg, distance_self in Hle.
    pose proof (distance_nonneg (geometry q) (geometry p)).
    rewrite Hd, distance_sym. lra.
Qed.

(** ** The two statistics and the x axis *)

Lemma fold_right_Rplus_bounds (ds : list R) (lo hi : R) :
  (forall d, In d ds -> lo <= d <= hi) ->
  INR (length ds) * lo <= fold_right Rplus 0 ds <= INR (length ds) * hi.
Proof.
  induction ds as [| d ds IH]; intros H.
  - simpl. lra.
  - simpl length. rewrite S_INR. simpl fold_right.
    destruct (H d (or_introl eq_refl)) as [H1 H2].
    destruct IH as [H3 H4]; [intros x Hx; apply H; now right |].
    lra.
Qed.

Lemma nth_sorted_bounds (ds : list R) (lo hi : R) (i : nat) :
  (forall d, In d ds -> lo <= d <= hi) ->
  (i < length ds)%nat ->
  lo <= nth i (sorted ds) 0 <= hi.
Proof.
  intros H Hi. apply H.
  apply (Permutation_in _ (sorted_perm ds)).
  apply nth_In. now rewrite (Permutation_length (sorted_perm ds)).
Qed.

Lemma py_div_bounds (s lo hi : R) (n : nat) :
  n <> 0%nat ->
  INR n * lo <= s <= INR n * hi ->
  exists v, py_div s n = Ok v /\ lo <= v <= hi.
Proof.
  intros Hn [H1 H2].
  destruct n as [| n]; [contradiction |].
  exists (s / INR (S n)). split; [reflexivity |].
  assert (Hpos : 0 < INR (S n)) by (apply lt_0_INR; lia).
  assert (E : s / INR (S n) * INR (S n) = s) by (field; lra).
  split; apply (Rmult_le_reg_r (INR (S n))); auto; rewrite E; lra.
Qed.

Lemma median_bounds (ds : list R) (lo hi : R) :
  ds <> [] ->
  (forall d, In d ds -> lo <= d <= hi) ->
  exists v, median ds = Ok v /\ lo <= v <= hi.
Proof.
  intros Hne H. unfold median.
  rewrite (Permutation_length (sorted_perm ds)).
  assert (Hlen : length ds <> 0%nat)
    by (destruct ds; [contradiction | discriminate]).
  destruct (Nat.eqb_spec (length ds) 0) as [E | _]; [contradiction |].
  assert (Hhalf : (length ds / 2 < length ds)%nat)
    by (apply Nat.div_lt; lia).
  destruct (Nat.eqb (length ds mod 2) 1).
  - eexists; split; [reflexivity |]. now apply nth_sorted_bounds.
  - eexists; split; [reflexivity |].
    pose proof (nth_sorted_bounds ds lo hi (length ds / 2 - 1) H) as B1.
    pose proof (nth_sorted_bounds ds lo hi (length ds / 2) H Hhalf) as B2.
    assert (length ds / 2 - 1 < length ds)%nat by lia.
    specialize (B1 H0). lra.
Qed.

Lemma mean_and_median_bounds_aux (om : frame matched) (lo hi : R) :
  om <> [] ->
  (forall d, In d (map closest_distance (values om)) -> lo <= d <= hi) ->
  exists mean med,
    dist_mean om = Ok mean /\ dist_median om = Ok med /\
    lo <= mean <= hi /\ lo <= med <= hi.
Proof.
  intros Hne H.
  assert (Hlen : length om = length (map closest_distance (values om)))
    by (unfold values; now rewrite !length_map).
  destruct (py_div_bounds (py_sum (map closest_distance (values om))) lo hi
              (length om)) as (mean & Hmean & Bmean).
  { destruct om; [contradiction | discriminate]. }
  { rewrite py_sum_fold_right, Hlen. now apply fold_right_Rplus_bounds. }
  destruct (median_bounds (map closest_distance (values om)) lo hi)
    as (med & Hmed & Bmed); auto.
  { destruct om; [contradiction | discriminate]. }
  exists mean, med. repeat split; auto; lra.
Qed.

(** X8.  On a non-empty frame the median is computed, and it lies between
    any two bounds of the distance column: it is never below the smallest
    nor above the largest recorded distance. *)
Theorem median_within_the_distances :
  forall (om : frame matched) (lo hi : R),
    om <> [] ->
    (forall d, In d (map closest_distance (values om)) -> lo <= d <= hi) ->
    exists med, dist_median om = Ok med /\ lo <= med <= hi.
Proof.
  intros om lo hi Hne H. apply median_bounds; auto.
  destruct om; [contradiction | discriminate].
Qed.

Lemma sorted_Permutation (l l' : list R) :
  Permutation l l' -> sorted l = sorted l'.
Proof.
  intros Hp. apply Sorted_Rle_unique; auto using sorted_Sorted.
  rewrite (sorted_perm l), (sorted_perm l'). exact Hp.
Qed.

(** X9.  The median does not depend on the order of the rows: two frames
    whose rows are a permutation of each other have the same
    [dist_median] (the same value, or the same [StatisticsError]). *)
Theorem median_ignores_the_row_order :
  forall om om' : frame matched,
    Permutation om om' -> dist_median om = dist_median om'.
Proof.
  intros om om' Hp. unfold dist_median, median, values.
  rewrite (sorted_Permutation (map closest_distance (map snd om))
                              (map closest_distance (map snd om'))).
  - reflexivity.
  - now do 2 apply Permutation_map.
Qed.

Lemma fold_left_max_spec (xs : list R) (x : R) :
  let m := fold_left (fun best y => if Rlt_dec best y then y else best) xs x in
  In m (x :: xs) /\ forall y, In y (x :: xs) -> y <= m.
Proof.
  revert x. induction xs as [| a xs IH]; intros x; simpl.
  - split; [now left |]. intros y [<- | []]. lra.
  - destruct (Rlt_dec x a) as [Hlt | Hge].
    + destruct (IH a) as [Hin Hle]. split.
      * now right.
      * intros y [<- | Hy]; [| now apply Hle].
        specialize (Hle a (or_introl eq_refl)). lra.
    + destruct (IH x) as [Hin Hle]. split.
      * destruct Hin as [<- | Hin]; [now left | now right; right].
      * intros y [<- | [<- | Hy]].
        -- apply Hle. now left.
        -- specialize (Hle x (or_introl eq_refl)). lra.
        -- apply Hle. now right.
Qed.

Lemma py_max_spec (xs : list R) :
  xs <> [] ->
  exists m, py_max xs = Ok m /\ In m xs /\ forall y, In y xs -> y <= m.
Proof.
  destruct xs as [| x xs]; [contradiction |]. intros _.
  eexists. split; [reflexivity |]. apply fold_left_max_spec.
Qed.

Lemma Forall2_In_r {T U : Type} (P : T -> U -> Prop) (l : list T)
    (l' : list U) (y : U) :
  Forall2 P l l' -> In y l' -> exists x, In x l /\ P x y.
Proof.
  induction 1 as [| a b l l' Hab _ IH]; simpl; [contradiction |].
  intros [<- | Hin].
  - exists a; auto.
  - destruct (IH Hin) as (x & Hx & HP). exists x; auto.
Qed.

Lemma matcher_distances_nonneg (munros tops : frame peak) (om : frame matched) :
  NoDup (labels munros) ->
  matcher munros tops = Ok om ->
  om <> [] /\
  forall d, In d (map closest_distance (values om)) -> 0 <= d.
Proof.
  intros Hnd Hom.
  destruct munros as [| r0 A]; [discriminate Hom |].
  rewrite matcher_match_row in Hom by (auto; discriminate).
  assert (HF : Forall2 (fun r m => 0 <= closest_distance (snd m))
                       (r0 :: A) om).
  { apply (mapM_Forall2 (match_row tops)); [| exact Hom].
    intros r m H. unfold match_row in H.
    apply bind_Ok_inv in H as (q & _ & H). injection H as <-. simpl.
    pose proof (distance_nonneg (geometry (snd r)) (geometry q)). lra. }
  split.
  - intros ->. inversion HF.
  - intros d Hd. unfold values in Hd. rewrite map_map in Hd.
    apply in_map_iff in Hd as (m & <- & Hm).
    destruct (Forall2_In_r _ _ _ _ HF Hm) as (_ & _ & H). exact H.
Qed.

(** X10.  When the script reaches its statistics, the x axis is set to
    [0 .. hi + 5] where [hi] is the largest recorded distance; every
    recorded distance and the median lie between [0] and [hi], and the
    mean between [0] and the right end of the axis, so the histogram and
    the two vertical lines are inside the axis. *)
Theorem everything_drawn_is_inside_the_x_axis :
  forall (rows : list csv_row) (s : summary),
    exploration rows = Ok s ->
    exists hi,
      xlim (s_only_munros s) = Ok (0, hi + 5) /\
      In hi (map closest_distance (values (s_only_munros s))) /\
      (forall d, In d (map closest_distance (values (s_only_munros s))) ->
         0 <= d <= hi) /\
      0 <= s_dist_mean s < hi + 5 /\
      0 <= s_dist_median s <= hi.
Proof.
  intros rows s Hs. unfold exploration in Hs.
  fold (script_munros rows) (script_tops rows) in Hs.
  apply bind_Ok_inv in Hs as (om & Hom & Hs).
  apply bind_Ok_inv in Hs as (mean & Hmean & Hs).
  apply bind_Ok_inv in Hs as (med & Hmed & Hs).
  injection Hs as <-. simpl.
  destruct (matcher_distances_nonneg _ _ _ (script_munros_NoDup rows) Hom)
    as [Hne Hpos].
  destruct (py_max_spec (map closest_distance (values om)))
    as (hi & Hhi & Hin & Hle).
  { destruct om; [contradiction | discriminate]. }
  assert (Hall : forall d, In d (map closest_distance (values om)) ->
                   0 <= d <= hi) by (intros d Hd; split; auto).
  destruct (mean_and_median_bounds_aux om 0 hi Hne Hall)
    as (mean' & med' & Hmean' & Hmed' & B1 & B2).
  rewrite Hmean in Hmean'. rewrite Hmed in Hmed'.
  injection Hmean' as <-. injection Hmed' as <-.
  exists hi. split; [unfold xlim; now rewrite Hhi |].
  repeat split; auto; try lra; now apply Hle.
Qed.

(** ** The median splits the column *)

Lemma sorted_nth_le (s : list R) :
  Sorted Rle s ->
  forall i j, (i <= j < length s)%nat -> nth i s 0 <= nth j s 0.
Proof.
  intros Hs. apply Sorted_StronglySorted in Hs; [| exact Rle_trans].
  induction Hs as [| a s Hs IH Hall]; intros i j Hij; simpl in Hij; [lia |].
  destruct i as [| i], j as [| j]; simpl; try lia.
  - lra.
  - rewrite Forall_forall in Hall. apply Hall. apply nth_In. lia.
  - apply IH. lia.
Qed.

Lemma filter_length_prefix (p : R -> bool) (s : list R) (m : nat) :
  (m <= length s)%nat ->
  (forall i, (i < m)%nat -> p (nth i s 0) = true) ->
  (m <= length (filter p s))%nat.
Proof.
  revert m. induction s as [| a s IH]; intros m Hm H; simpl in *; [lia |].
  destruct m as [| m]; [lia |].
  rewrite (H 0%nat) by lia. simpl.
  apply le_n_S, IH; [lia |].
  intros i Hi. apply (H (S i)). lia.
Qed.

Lemma filter_length_suffix (p : R -> bool) (s : list R) (m : nat) :
  (forall i, (m <= i < length s)%nat -> p (nth i s 0) = true) ->
  (length s - m <= length (filter p s))%nat.
Proof.
  revert m. induction s as [| a s IH]; intros m H; simpl in *; [lia |].
  destruct m as [| m].
  - rewrite (H 0%nat) by lia. simpl.
    specialize (IH 0%nat). rewrite Nat.sub_0_r in IH.
    apply le_n_S, IH. intros i Hi. apply (H (S i)). lia.
  - specialize (IH m).
    assert (length s - m <= length (filter p s))%nat.
    { apply IH. intros i Hi. apply (H (S i)). lia. }
    destruct (p a); simpl; lia.
Qed.

Lemma at_most_Permutation (v : R) (l l' : list R) :
  Permutation l l' -> length (at_most v l) = length (at_most v l').
Proof.
  intros Hp. unfold at_most. apply Permutation_length.
  clear -Hp. induction Hp; simpl.
  - constructor.
  - destruct (Rle_dec x v); auto.
  - destruct (Rle_dec x v), (Rle_dec y v); auto using perm_swap.
  - etransitivity; eauto.
Qed.

Lemma at_least_Permutation (v : R) (l l' : list R) :
  Permutation l l' -> length (at_least v l) = length (at_least v l').
Proof.
  intros Hp. unfold at_least. apply Permutation_length.
  clear -Hp. induction Hp; simpl.
  - constructor.
  - destruct (Rle_dec v x); auto.
  - destruct (Rle_dec v x), (Rle_dec v y); auto using perm_swap.
  - etransitivity; eauto.
Qed.

Lemma median_splits (ds : list R) (med : R) :
  median ds = Ok med ->
  (length ds <= 2 * length (at_most med ds))%nat /\
  (length ds <= 2 * length (at_least med ds))%nat.
Proof.
  intros Hmed.
  rewrite <- (at_most_Permutation med _ _ (sorted_perm ds)).
  rewrite <- (at_least_Permutation med _ _ (sorted_perm ds)).
  unfold median in Hmed.
  pose proof (sorted_Sorted ds) as Hs.
  pose proof (Permutation_length (sorted_perm ds)) as Hlen.
  set (s := sorted ds) in *. rewrite <- Hlen. clearbody s. clear Hlen ds.
  pose proof (sorted_nth_le s Hs) as Hnth.
  destruct (Nat.eqb_spec (length s) 0) as [| Hn]; [discriminate |].
  pose proof (Nat.div_mod_eq (length s) 2) as Hdm.
  assert (Hub : (length s mod 2 < 2)%nat)
    by (apply Nat.mod_upper_bound; lia).
  destruct (Nat.eqb_spec (length s mod 2) 1) as [Hodd | Heven];
    injection Hmed as <-;
    change (fst (Nat.divmod (length s) 1 0 1)) with (length s / 2)%nat.
  - set (k := (length s / 2)%nat) in *. clearbody k. split.
    + assert (k + 1 <= length (at_most (nth k s 0%R) s))%nat; [| lia].
      apply filter_length_prefix; [lia |].
      intros i Hi. destruct (Rle_dec (nth i s 0) (nth k s 0)) as [| C];
        [reflexivity |]. exfalso. apply C, Hnth. lia.
    + assert (length s - k <= length (at_least (nth k s 0%R) s))%nat; [| lia].
      apply filter_length_suffix.
      intros i Hi. destruct (Rle_dec (nth k s 0) (nth i s 0)) as [| C];
        [reflexivity |]. exfalso. apply C, Hnth. lia.
  - set (k := (length s / 2)%nat) in *. clearbody k.
    assert (Hk : (length s = 2 * k /\ 1 <= k)%nat) by lia.
    assert (Hmid : nth (k - 1) s 0 <= nth k s 0) by (apply Hnth; lia).
    split.
    + assert (k <= length (at_most ((nth (k - 1) s 0 + nth k s 0) / 2)%R s))%nat;
        [| lia].
      apply filter_length_prefix; [lia |].
      intros i Hi.
      destruct (Rle_dec (nth i s 0) ((nth (k - 1) s 0 + nth k s 0) / 2))
        as [| C]; [reflexivity |].
      exfalso. apply C.
      assert (nth i s 0 <= nth (k - 1) s 0) by (apply Hnth; lia). lra.
    + assert (length s - k
              <= length (at_least ((nth (k - 1) s 0 + nth k s 0) / 2)%R s))%nat;
        [| lia].
      apply filter_length_suffix.
      intros i Hi.
      destruct (Rle_dec ((nth (k - 1) s 0 + nth k s 0) / 2) (nth i s 0))
        as [| C]; [reflexivity |].
      exfalso. apply C.
      assert (nth k s 0 <= nth i s 0) by (apply Hnth; lia). lra.
Qed.

(** X11.  Whenever [dist_median] returns a value, at least half of the
    recorded distances are at most that value and at least half are at
    least that value. *)
Theorem median_splits_the_distances :
  forall (om : frame matched) (med : R),
    dist_median om = Ok med ->
    (length om
     <= 2 * length (at_most med (map closest_distance (values om))))%nat /\
    (length om
     <= 2 * length (at_least med (map closest_distance (values om))))%nat.
Proof.
  intros om med H.
  replace (length om) with (length (map closest_distance (values om)))
    by (unfold values; now rewrite !length_map).
  now apply median_splits.
Qed.

(** ** The further properties at concrete tables *)

Lemma dist_median_om_123 : dist_median om_123 = Ok 2.
Proof.
  unfold dist_median, median. simpl. decide_Rle. reflexivity.
Qed.

Lemma matcher_of_two_parts_witness :
  [(0%nat, peak_munro)] <> [] /\
  [(3%nat, peak_twin)] <> [] /\
  NoDup (labels ([(0%nat, peak_munro)] ++ [(3%nat, peak_twin)])) /\
  matcher ([(0%nat, peak_munro)] ++ [(3%nat, peak_twin)])
          (script_tops rows_near_far)
  = (om1 <- matcher [(0%nat, peak_munro)] (script_tops rows_near_far) ;;
     om2 <- matcher [(3%nat, peak_twin)] (script_tops rows_near_far) ;;
     Ok (om1 ++ om2)).
Proof.
  assert (H1 : [(0%nat, peak_munro)] <> []) by discriminate.
  assert (H2 : [(3%nat, peak_twin)] <> []) by discriminate.
  assert (H3 : NoDup (labels ([(0%nat, peak_munro)] ++ [(3%nat, peak_twin)]))).
  { simpl. repeat constructor; simpl; intuition discriminate. }
  repeat (split; [assumption |]).
  exact (matcher_of_two_parts _ _ (script_tops rows_near_far) H1 H2 H3).
Defined.

Lemma more_tops_never_farther_witness :
  NoDup (labels (script_munros rows_near_far)) /\
  NoDup (labels [(2%nat, peak_far)]) /\
  NoDup (labels (script_tops rows_near_far)) /\
  [(2%nat, peak_far)] <> [] /\
  incl (values [(2%nat, peak_far)]) (values (script_tops rows_near_far)) /\
  In (0%nat, peak_munro) (script_munros rows_near_far) /\
  exists om om' m m',
    matcher (script_munros rows_near_far) [(2%nat, peak_far)] = Ok om /\
    matcher (script_munros rows_near_far) (script_tops rows_near_far)
      = Ok om' /\
    In (0%nat, m) om /\ In (0%nat, m') om' /\
    munro m = peak_munro /\ munro m' = peak_munro /\
    closest_distance m' <= closest_distance m.
Proof.
  assert (H1 : NoDup (labels (script_munros rows_near_far)))
    by apply script_munros_NoDup.
  assert (H2 : NoDup (labels [(2%nat, peak_far)])).
  { simpl. repeat constructor; simpl; intuition discriminate. }
  assert (H3 : NoDup (labels (script_tops rows_near_far)))
    by apply script_tops_NoDup.
  assert (H4 : [(2%nat, peak_far)] <> []) by discriminate.
  assert (H5 : incl (values [(2%nat, peak_far)])
                    (values (script_tops rows_near_far))).
  { intros q [<- | []]. right; left; reflexivity. }
  assert (H6 : In (0%nat, peak_munro) (script_munros rows_near_far))
    by (left; reflexivity).
  repeat (split; [assumption |]).
  exact (more_tops_never_farther _ _ _ 0%nat peak_munro H1 H2 H3 H4 H5 H6).
Defined.

Lemma zero_distance_means_same_coordinates_witness :
  script_tops rows_twins <> [] /\
  In (0%nat, peak_twin) (script_munros rows_twins) /\
  exists om m,
    matcher (script_munros rows_twins) (script_tops rows_twins) = Ok om /\
    In (0%nat, m) om /\
    (forall m', In (0%nat, m') om -> m' = m) /\
    munro m = peak_twin /\
    (closest_distance m = 0 <->
     exists q, In q (values (script_tops rows_twins)) /\
               geometry q = geometry peak_twin).
Proof.
  assert (H1 : script_tops rows_twins <> []) by discriminate.
  assert (H2 : In (0%nat, peak_twin) (script_munros rows_twins))
    by (left; reflexivity).
  split; [exact H1 |]. split; [exact H2 |].
  exact (zero_distance_means_same_coordinates rows_twins 0%nat peak_twin
           H1 H2).
Defined.

Lemma median_within_the_distances_witness :
  om_123 <> [] /\
  (forall d, In d (map closest_distance (values om_123)) -> 1 <= d <= 3) /\
  exists med, dist_median om_123 = Ok med /\ 1 <= med <= 3.
Proof.
  assert (H1 : om_123 <> []) by discriminate.
  assert (H2 : forall d, In d (map closest_distance (values om_123)) ->
                 1 <= d <= 3).
  { intros d Hd. simpl in Hd. destruct Hd as [<- | [<- | [<- | []]]]; lra. }
  split; [exact H1 |]. split; [exact H2 |].
  exact (median_within_the_distances om_123 1 3 H1 H2).
Defined.

Lemma median_ignores_the_row_order_witness :
  Permutation om_123 (rev om_123) /\
  dist_median om_123 = dist_median (rev om_123).
Proof.
  assert (H : Permutation om_123 (rev om_123)) by apply Permutation_rev.
  split; [exact H |].
  exact (median_ignores_the_row_order om_123 (rev om_123) H).
Defined.

Lemma everything_drawn_is_inside_the_x_axis_witness :
  exists s hi,
    exploration rows_near_far = Ok s /\
    xlim (s_only_munros s) = Ok (0, hi + 5) /\
    In hi (map closest_distance (values (s_only_munros s))) /\
    (forall d, In d (map closest_distance (values (s_only_munros s))) ->
       0 <= d <= hi) /\
    0 <= s_dist_mean s < hi + 5 /\
    0 <= s_dist_median s <= hi.
Proof.
  eexists.
  destruct (everything_drawn_is_inside_the_x_axis rows_near_far _
              exploration_near_far) as (hi & H).
  exists hi. split; [exact exploration_near_far | exact H].
Defined.

Lemma median_splits_the_distances_witness :
  dist_median om_123 = Ok 2 /\
  (length om_123
   <= 2 * length (at_most 2 (map closest_distance (values om_123))))%nat /\
  (length om_123
   <= 2 * length (at_least 2 (map closest_distance (values om_123))))%nat.
Proof.
  split; [exact dist_median_om_123 |].
  exact (median_splits_the_distances om_123 2 dist_median_om_123).
Defined.
